(** * pdf2png: a shallow embedding of [pdf2png/tool.py]

    The tool reads one PDF from the GPTScript workspace, rasterises every
    page, and writes one PNG per page back to the workspace.  This file
    embeds the Python source function by function and proves the
    properties recorded for it.

    Layout:
    - [PyStr]      Python [str] values and the [str] methods the tool calls;
    - [PosixPath]  the three [os.path] functions the tool calls, after
                   CPython's [Lib/posixpath.py];
    - [World]      what the tool reads and changes: the environment, the
                   workspace store, the local file system;
    - [Tool]       the functions of [tool.py] themselves;
    - [Sample]     collaborators and worlds small enough to run;
    - then the properties, in the order of the functions they are about. *)

From Stdlib Require Import ZArith NArith Floats Ascii String DecimalString
  DecimalNat.
From stdpp Require Import base option list gmap.

Local Open Scope N_scope.
Local Open Scope list_scope.

(** ** Exceptions and results *)

(** The Python exceptions that can leave the functions modelled here. *)
Inductive exn : Type :=
  | ValueError          (* str.split / str.rsplit with an empty separator *)
  | IndexError          (* list index out of range *)
  | TypeError           (* os.path.join(None, ...) *)
  | AttributeError      (* None.rsplit *)
  | UnicodeEncodeError  (* str.encode on a lone surrogate *)
  | FileNotFoundError   (* open / makedirs on the empty path *)
  | FileExistsError     (* makedirs over a regular file *)
  | IsADirectoryError   (* open(..., "wb") on a directory *)
  | PermissionError     (* the operating system refuses a local write *)
  | WorkspaceError      (* the workspace client failed or refused *)
  | FileDataError.      (* fitz.open on something that is not a PDF *)

Inductive result (A : Type) : Type :=
  | Ok (a : A)
  | Raise (e : exn).
Arguments Ok {A} a.
Arguments Raise {A} e.

Definition is_ok {A} (r : result A) : bool :=
  match r with Ok _ => true | Raise _ => false end.

(** ** Python strings *)

Module PyStr.

(** A Python [str] is a sequence of Unicode code points; a code point is
    a number below [0x110000].  [bytes] is a sequence of octets. *)
Abbreviation str := (list N).
Abbreviation bytes := (list Byte.byte).

(** String literals of the source, read code point by code point. *)
Definition lit (x : string) : str :=
  N_of_ascii <$> list_ascii_of_string x.

(** [s.startswith(p)] *)
Fixpoint startswith (s p : str) : bool :=
  match p, s with
  | [], _ => true
  | _ :: _, [] => false
  | a :: p', b :: s' => (a =? b) && startswith s' p'
  end.

(** [s.endswith(p)] *)
Definition endswith (s p : str) : bool :=
  startswith (rev s) (rev p).

(** [s.split(sep)] for a non-empty separator: a left-to-right scan for
    non-overlapping occurrences of [sep].  [cur] holds, reversed, the
    characters of the piece being read; [skip] counts the characters of a
    matched separator still to be passed over. *)
Fixpoint split_go (sep s cur : str) (skip : nat) : list str :=
  match s with
  | [] => [rev cur]
  | c :: s' =>
      match skip with
      | S k => split_go sep s' cur k
      | O =>
          if startswith s sep
          then rev cur :: split_go sep s' [] (pred (length sep))
          else split_go sep s' (c :: cur) O
      end
  end.

Definition split_by (sep s : str) : list str := split_go sep s [] O.

(** [s.split(sep)]: Python raises [ValueError("empty separator")]. *)
Definition split (s sep : str) : result (list str) :=
  match sep with
  | [] => Raise ValueError
  | _ :: _ => Ok (split_by sep s)
  end.

(** [s.rfind(sub)]: the highest index at which [sub] occurs in [s];
    [rfind_from] carries the index of the head of [s]. *)
Fixpoint rfind_from (s sub : str) (i : nat) : option nat :=
  match s with
  | [] => if startswith [] sub then Some i else None
  | _ :: s' =>
      match rfind_from s' sub (S i) with
      | Some j => Some j
      | None => if startswith s sub then Some i else None
      end
  end.

Definition rfind (s sub : str) : option nat := rfind_from s sub O.

(** [s.rsplit(sep, maxsplit)] for a non-empty separator: at most
    [maxsplit] cuts, taken from the right. *)
Fixpoint rsplit_by (sep s : str) (maxsplit : nat) : list str :=
  match maxsplit with
  | O => [s]
  | S m =>
      match rfind s sep with
      | None => [s]
      | Some i => rsplit_by sep (take i s) m ++ [drop (i + length sep)%nat s]
      end
  end.

Definition rsplit (s sep : str) (maxsplit : nat) : result (list str) :=
  match sep with
  | [] => Raise ValueError
  | _ :: _ => Ok (rsplit_by sep s maxsplit)
  end.

(** [sep.join(parts)] *)
Fixpoint join (sep : str) (parts : list str) : str :=
  match parts with
  | [] => []
  | [p] => p
  | p :: rest => p ++ sep ++ join sep rest
  end.

(** [str(i)] for a non-negative [int], as an f-string formats it. *)
Definition of_nat (i : nat) : str :=
  lit (NilZero.string_of_uint (Nat.to_uint i)).

(** The octet with value [n land 255]. *)
Definition octet (n : N) : Byte.byte :=
  match Byte.of_N (N.land n 255) with
  | Some b => b
  | None => Byte.x00
  end.

(** A continuation octet [10xxxxxx] carrying bits [sh+5 .. sh] of [c]. *)
Definition cont (c : N) (sh : N) : Byte.byte :=
  octet (N.lor 128 (N.land (N.shiftr c sh) 63)).

(** The UTF-8 form of one code point.  The strict error handler of
    [str.encode] refuses the surrogates [U+D800 .. U+DFFF]; numbers from
    [0x110000] on are not code points and never occur in a [str]. *)
Definition encode_char (c : N) : result bytes :=
  if c <? 128 then Ok [octet c]
  else if c <? 2048 then Ok [octet (N.lor 192 (N.shiftr c 6)); cont c 0]
  else if c <? 65536 then
    if (55296 <=? c) && (c <=? 57343) then Raise UnicodeEncodeError
    else Ok [octet (N.lor 224 (N.shiftr c 12)); cont c 6; cont c 0]
  else if c <? 1114112 then
    Ok [octet (N.lor 240 (N.shiftr c 18)); cont c 12; cont c 6; cont c 0]
  else Raise UnicodeEncodeError.

(** [s.encode("utf-8")] *)
Fixpoint encode_utf8 (s : str) : result bytes :=
  match s with
  | [] => Ok []
  | c :: s' =>
      match encode_char c with
      | Raise e => Raise e
      | Ok b =>
          match encode_utf8 s' with
          | Raise e => Raise e
          | Ok bs => Ok (b ++ bs)
          end
      end
  end.

(** [xs[i]] on a list: [IndexError] when out of range. *)
Definition index {A} (xs : list A) (i : nat) : result A :=
  match xs !! i with
  | Some x => Ok x
  | None => Raise IndexError
  end.

End PyStr.

Import PyStr.

(** ** posixpath *)

(** The tool runs on a POSIX host: [os.sep] is [/] and [os.path] is
    [posixpath], as the examples in the docstring of [prepend_base_path]
    have it. *)
Module PosixPath.

Definition sep : str := lit "/".
Definition dot : str := lit ".".
Definition dotdot : str := lit "..".

Definition str_eqb (a b : str) : bool := bool_decide (a = b).

(** The body of the [for comp in comps] loop of [posixpath.normpath].
    [new_comps] is a Python list used as a stack that grows at its end. *)
Definition normpath_step (initial_slashes : nat) (new_comps : list str)
    (comp : str) : list str :=
  if str_eqb comp [] || str_eqb comp dot then new_comps
  else if negb (str_eqb comp dotdot)
          || (Nat.eqb initial_slashes 0 && bool_decide (new_comps = []))
          || (negb (bool_decide (new_comps = []))
              && bool_decide (last new_comps = Some dotdot))
  then new_comps ++ [comp]
  else if negb (bool_decide (new_comps = [])) then removelast new_comps
  else new_comps.

(** [os.path.normpath(path)] *)
Definition normpath (path : str) : str :=
  if str_eqb path [] then dot
  else
    let initial_slashes : nat :=
      if startswith path sep then
        if startswith path (sep ++ sep)
           && negb (startswith path (sep ++ sep ++ sep))
        then 2%nat else 1%nat
      else 0%nat in
    let comps := split_by sep path in
    let new_comps := fold_left (normpath_step initial_slashes) comps [] in
    let path' := PyStr.join sep new_comps in
    let path' := concat (replicate initial_slashes sep) ++ path' in
    if str_eqb path' [] then dot else path'.

(** [os.path.join(a, b)] with one trailing component. *)
Definition join (a b : str) : str :=
  if startswith b sep then b
  else if str_eqb a [] || endswith a sep then a ++ b
  else a ++ sep ++ b.

(** [os.path.basename(p)]: everything after the last separator. *)
Definition basename (p : str) : str :=
  match rfind p sep with
  | Some i => drop (S i) p
  | None => p
  end.

End PosixPath.

(** ** The world the tool runs in *)

Module World.

(** A call made through the workspace client. *)
Inductive ws_call : Type :=
  | WsRead (path : str)
  | WsWrite (path : str) (data : bytes).

Definition is_write (c : ws_call) : bool :=
  match c with WsWrite _ _ => true | WsRead _ => false end.

(** Everything outside the process that the tool reads or changes.
    - [environ]: the process environment ([os.environ]);
    - [ws_files]: the files of the workspace store, by workspace path;
    - [ws_fails n]: whether the [n]-th call to the store fails (store
      unreachable, write refused), whatever its arguments;
    - [ws_calls]: the calls made to the store so far, oldest first;
    - [fs_dirs], [fs_files]: directories and regular files of the local
      file system, by the path they were created under;
    - [fs_denied]: local paths the operating system refuses to create
      (permissions, full disk). *)
Record world : Type := {
  environ : gmap str str;
  ws_files : gmap str bytes;
  ws_fails : nat → bool;
  ws_calls : list ws_call;
  fs_dirs : gset str;
  fs_files : gmap str bytes;
  fs_denied : gset str;
}.

(** The writes among the calls made to the store. *)
Definition ws_writes (w : world) : list ws_call :=
  filter (λ c, is_write c = true) (ws_calls w).

(** Computations that read and change the world and may raise.  A raised
    exception keeps the world as it was when it was raised. *)
Definition M (A : Type) : Type := world → result A * world.

Definition ret {A} (a : A) : M A := λ w, (Ok a, w).
Definition raise {A} (e : exn) : M A := λ w, (Raise e, w).
Definition bind {A B} (m : M A) (k : A → M B) : M B :=
  λ w, match m w with
       | (Ok a, w') => k a w'
       | (Raise e, w') => (Raise e, w')
       end.
Definition lift {A} (r : result A) : M A := λ w, (r, w).

#[global] Instance M_ret : MRet M := @ret.
#[global] Instance M_bind : MBind M := λ A B k m, bind m k.

(** [os.getenv(name)]: [None] when the variable is not set. *)
Definition getenv (name : str) : M (option str) :=
  λ w, (Ok (environ w !! name), w).

(** [os.makedirs(path, exist_ok=True)].  Only the leaf is recorded; the
    tool never looks at its ancestors. *)
Definition makedirs (path : str) : M unit :=
  λ w,
    if bool_decide (path = []) then (Raise FileNotFoundError, w)
    else if bool_decide (path ∈ dom (fs_files w)) then (Raise FileExistsError, w)
    else if bool_decide (path ∈ fs_dirs w) then (Ok (), w)
    else if bool_decide (path ∈ fs_denied w) then (Raise PermissionError, w)
    else (Ok (), {| environ := environ w; ws_files := ws_files w;
                    ws_fails := ws_fails w; ws_calls := ws_calls w;
                    fs_dirs := {[path]} ∪ fs_dirs w;
                    fs_files := fs_files w; fs_denied := fs_denied w |}).

(** [with open(path, "wb") as f: f.write(data)].  A path whose last
    component is empty, [.] or [..] names a directory. *)
Definition open_wb (path : str) (data : bytes) : M unit :=
  λ w,
    let leaf := PosixPath.basename path in
    if bool_decide (path = []) then (Raise FileNotFoundError, w)
    else if bool_decide (leaf = []) || bool_decide (leaf = PosixPath.dot)
            || bool_decide (leaf = PosixPath.dotdot)
            || bool_decide (path ∈ fs_dirs w)
    then (Raise IsADirectoryError, w)
    else if bool_decide (path ∈ fs_denied w) then (Raise PermissionError, w)
    else (Ok (), {| environ := environ w; ws_files := ws_files w;
                    ws_fails := ws_fails w; ws_calls := ws_calls w;
                    fs_dirs := fs_dirs w;
                    fs_files := <[path := data]> (fs_files w);
                    fs_denied := fs_denied w |}).

(** [open(path, "rb").read()], as [fitz.open] does it. *)
Definition read_local (path : str) : M bytes :=
  λ w, match fs_files w !! path with
       | Some data => (Ok data, w)
       | None => (Raise FileNotFoundError, w)
       end.

(** The world after one more call to the store. *)
Definition called (c : ws_call) (files : gmap str bytes) (w : world) : world :=
  {| environ := environ w; ws_files := files;
     ws_fails := ws_fails w; ws_calls := ws_calls w ++ [c];
     fs_dirs := fs_dirs w; fs_files := fs_files w;
     fs_denied := fs_denied w |}.

(** [await GPTScript().read_file_in_workspace(path)] *)
Definition read_file_in_workspace (path : str) : M bytes :=
  λ w,
    let w' := called (WsRead path) (ws_files w) w in
    if ws_fails w (length (ws_calls w)) then (Raise WorkspaceError, w')
    else match ws_files w !! path with
         | Some data => (Ok data, w')
         | None => (Raise WorkspaceError, w')
         end.

(** [await GPTScript().write_file_in_workspace(path, data)] *)
Definition write_file_in_workspace (path : str) (data : bytes) : M unit :=
  λ w,
    if ws_fails w (length (ws_calls w))
    then (Raise WorkspaceError, called (WsWrite path data) (ws_files w) w)
    else (Ok (), called (WsWrite path data) (<[path := data]> (ws_files w)) w).

End World.

Import World.

(** ** The tool *)

Module Tool.

(** [int / int] of Python is the correctly rounded quotient.  For
    operands of magnitude at most [2^53] both convert to binary64 without
    rounding, and the quotient is the IEEE division computed here. *)
Definition float_of_Z (z : Z) : float :=
  match z with
  | Z0 => 0%float
  | Zpos p => PrimFloat.of_uint63 (Uint63.of_Z (Zpos p))
  | Zneg p => PrimFloat.opp (PrimFloat.of_uint63 (Uint63.of_Z (Zpos p)))
  end.

Definition truediv (a b : Z) : float :=
  PrimFloat.div (float_of_Z a) (float_of_Z b).

(** [fitz.Matrix]: the six coefficients [a b c d e f] of an affine map. *)
Record Matrix : Type := {
  ma : float; mb : float; mc : float; md : float; me : float; mf : float
}.

(** [fitz.Matrix(sx, sy)]: scaling by [sx] along x and [sy] along y. *)
Definition scale (sx sy : float) : Matrix :=
  {| ma := sx; mb := 0; mc := 0; md := sy; me := 0; mf := 0 |}.

(** [fitz.Pixmap]: the fields [convert_pdf_to_images] reads. *)
Record Pixmap : Type := {
  width : N; height : N; samples : bytes
}.

(** What the tool returns: the dict literal [{"images": generated_files}]. *)
Definition images_key : str := lit "images".

(** The [dpi=300] default of [convert_pdf_to_images]. *)
Definition default_dpi : Z := 300.

(** What [save_to_gptscript_workspace] accepts: [bytes | str]. *)
Inductive content : Type :=
  | CBytes (b : bytes)
  | CStr (s : str).

Section Tool.

(** The rasterisation and imaging libraries.
    - [page]: a page of an opened document; a document is its pages;
    - [image]: a [PIL.Image.Image];
    - [parse_pdf]: what [fitz.open] makes of a file's content, [None] when
      it is not a PDF;
    - [get_pixmap]: [page.get_pixmap(matrix=mat)];
    - [frombytes]: [Image.frombytes(mode, size, data)];
    - [save_png]: the content of the buffer after
      [img.save(buf, format="PNG")]. *)
Context {page image : Type}.
Variable parse_pdf : bytes → option (list page).
Variable get_pixmap : page → Matrix → Pixmap.
Variable frombytes : str → N * N → bytes → image.
Variable save_png : image → bytes.

(** One page rendered the way the loop body does it. *)
Definition render (dpi : Z) (p : page) : image :=
  let zoom := truediv dpi 72 in
  let mat := scale zoom zoom in
  let pix := get_pixmap p mat in
  frombytes (lit "RGB") (width pix, height pix) (samples pix).

(** The [for page_num in range(len(doc))] loop: [images] is the list
    built so far. *)
Fixpoint convert_loop (doc : list page) (dpi : Z) (page_nums : list nat)
    (images : list image) : result (list image) :=
  match page_nums with
  | [] => Ok images
  | page_num :: rest =>
      match index doc page_num with
      | Raise e => Raise e
      | Ok p =>
          let zoom := truediv dpi 72 in
          let mat := scale zoom zoom in
          let pix := get_pixmap p mat in
          let img := frombytes (lit "RGB") (width pix, height pix) (samples pix) in
          convert_loop doc dpi rest (images ++ [img])
      end
  end.

(** [fitz.open(pdf_path)] *)
Definition fitz_open (pdf_path : str) : M (list page) :=
  data ← read_local pdf_path;
  match parse_pdf data with
  | Some doc => mret doc
  | None => raise FileDataError
  end.

(** [convert_pdf_to_images(pdf_path, dpi)] *)
Definition convert_pdf_to_images (pdf_path : str) (dpi : Z) : M (list image) :=
  doc ← fitz_open pdf_path;
  lift (convert_loop doc dpi (seq 0 (length doc)) []).

(** [prepend_base_path(base_path, file_path)] *)
Definition prepend_base_path (base_path file_path : str) : result str :=
  match split (PosixPath.normpath file_path) PosixPath.sep with
  | Raise e => Raise e
  | Ok file_parts =>
      match index file_parts 0 with
      | Raise e => Raise e
      | Ok first =>
          if PosixPath.str_eqb first base_path then Ok file_path
          else Ok (PosixPath.join base_path file_path)
      end
  end.

(** [copy_pdf_from_gptscript_workspace(scratch_dir, filepath)] *)
Definition copy_pdf_from_gptscript_workspace (scratch_dir filepath : str)
    : M str :=
  wksp_file_path ← lift (prepend_base_path (lit "files") filepath);
  file_content ← read_file_in_workspace wksp_file_path;
  let local_path :=
    PosixPath.join scratch_dir (PosixPath.basename filepath) in
  _ ← open_wb local_path file_content;
  mret local_path.

(** [save_to_gptscript_workspace(filepath, content)] *)
Definition save_to_gptscript_workspace (filepath : str) (c : content)
    : M unit :=
  wksp_file_path ← lift (prepend_base_path (lit "files") filepath);
  data ← match c with
         | CStr s => lift (encode_utf8 s)
         | CBytes b => mret b
         end;
  write_file_in_workspace wksp_file_path data.

(** [create_scratch_dir()]: [os.path.join(None, "scratch")] is a
    [TypeError]. *)
Definition create_scratch_dir : M str :=
  gptscript_tool_dir ← getenv (lit "GPTSCRIPT_WORKSPACE_DIR");
  match gptscript_tool_dir with
  | None => raise TypeError
  | Some dir =>
      let path := PosixPath.join dir (lit "scratch") in
      _ ← makedirs path;
      mret path
  end.

(** [f"{base_name}_page_{i}.png"] *)
Definition page_file_name (base_name : str) (i : nat) : str :=
  base_name ++ lit "_page_" ++ of_nat i ++ lit ".png".

(** The [for i, img in enumerate(images)] loop of [main]: [i] is the
    index of the head of [images]. *)
Fixpoint save_loop (base_name : str) (i : nat) (images : list image)
    (generated_files : list str) : M (list str) :=
  match images with
  | [] => mret generated_files
  | img :: rest =>
      let file_name := page_file_name base_name i in
      let img_byte_arr := save_png img in
      _ ← save_to_gptscript_workspace file_name (CBytes img_byte_arr);
      save_loop base_name (S i) rest (generated_files ++ [file_name])
  end.

(** [pdf_file_name.rsplit(".pdf", 1)[0]] *)
Definition base_name_of (pdf_file_name : str) : result str :=
  match rsplit pdf_file_name (lit ".pdf") 1 with
  | Raise e => Raise e
  | Ok parts => index parts 0
  end.

(** [main()]: [None.rsplit] is an [AttributeError]. *)
Definition main : M (gmap str (list str)) :=
  scratch_dir ← create_scratch_dir;
  pdf_file_name ← getenv (lit "PDF_FILE");
  match pdf_file_name with
  | None => raise AttributeError
  | Some pdf_file_name =>
      base_name ← lift (base_name_of pdf_file_name);
      local_pdf_file_path ←
        copy_pdf_from_gptscript_workspace scratch_dir pdf_file_name;
      images ← convert_pdf_to_images local_pdf_file_path default_dpi;
      generated_files ← save_loop base_name 0 images [];
      mret {[ images_key := generated_files ]}
  end.

End Tool.

End Tool.

Import Tool.

(** ** Sample collaborators *)

(** A document format small enough to run: a file is a PDF when it starts
    with [%], and every octet after that is one page.  A page renders to
    a single pixel of its own value, and the PNG of an image is its data
    behind one marker octet. *)
Module Sample.

Definition parse_pdf (data : bytes) : option (list Byte.byte) :=
  match data with
  | Byte.x25 :: pages => Some pages
  | _ => None
  end.

Definition get_pixmap (p : Byte.byte) (m : Matrix) : Pixmap :=
  {| width := 1; height := 1; samples := [p; p; p] |}.

Definition frombytes (mode : str) (size : N * N) (data : bytes) : bytes :=
  data.

Definition save_png (img : bytes) : bytes := Byte.x89 :: img.

Definition main : M (gmap str (list str)) :=
  Tool.main parse_pdf get_pixmap frombytes save_png.

Definition convert_pdf_to_images : str → Z → M (list bytes) :=
  Tool.convert_pdf_to_images parse_pdf get_pixmap frombytes.

(** A fresh run: the given environment and workspace files, a store that
    answers every call, an empty local disk. *)
Definition start (env : list (str * str)) (files : list (str * bytes))
    : world :=
  {| environ := list_to_map env; ws_files := list_to_map files;
     ws_fails := λ _, false; ws_calls := [];
     fs_dirs := ∅; fs_files := ∅; fs_denied := ∅ |}.

Definition pdf (pages : list Byte.byte) : bytes := Byte.x25 :: pages.

(** [report.pdf], three pages. *)
Definition report : world :=
  start [(lit "GPTSCRIPT_WORKSPACE_DIR", lit "/ws");
         (lit "PDF_FILE", lit "report.pdf")]
        [(lit "files/report.pdf", pdf [Byte.x01; Byte.x02; Byte.x03])].

(** [foo/report.pdf], one page. *)
Definition nested : world :=
  start [(lit "GPTSCRIPT_WORKSPACE_DIR", lit "/ws");
         (lit "PDF_FILE", lit "foo/report.pdf")]
        [(lit "files/foo/report.pdf", pdf [Byte.x01])].

(** A PDF named [bar] inside a directory named [foo.pdf], one page. *)
Definition pdf_directory : world :=
  start [(lit "GPTSCRIPT_WORKSPACE_DIR", lit "/ws");
         (lit "PDF_FILE", lit "foo.pdf/bar")]
        [(lit "files/foo.pdf/bar", pdf [Byte.x01])].

(** [a.pdf.backup], one page. *)
Definition backup : world :=
  start [(lit "GPTSCRIPT_WORKSPACE_DIR", lit "/ws");
         (lit "PDF_FILE", lit "a.pdf.backup")]
        [(lit "files/a.pdf.backup", pdf [Byte.x01])].

(** A PDF without pages. *)
Definition blank : world :=
  start [(lit "GPTSCRIPT_WORKSPACE_DIR", lit "/ws");
         (lit "PDF_FILE", lit "blank.pdf")]
        [(lit "files/blank.pdf", pdf [])].

(** The workspace-root variable set to the empty string. *)
Definition empty_root : world :=
  start [(lit "GPTSCRIPT_WORKSPACE_DIR", []);
         (lit "PDF_FILE", lit "a.pdf")]
        [(lit "files/a.pdf", pdf [Byte.x01])].

(** The input-file-name variable set to the empty string. *)
Definition empty_name : world :=
  start [(lit "GPTSCRIPT_WORKSPACE_DIR", lit "/ws");
         (lit "PDF_FILE", [])]
        [(lit "files/a.pdf", pdf [Byte.x01])].

End Sample.

(** ** Vocabulary of the properties *)

(** The first segment of a path: its characters before the first
    separator. *)
Fixpoint first_segment (p : str) : str :=
  match p with
  | [] => []
  | c :: p' => if 47 =? c then [] else c :: first_segment p'
  end.

(** A path is rooted under [B] when the first segment of its normal form
    is [B]. *)
Definition rooted (B P : str) : Prop :=
  first_segment (PosixPath.normpath P) = B.

#[global] Instance rooted_dec (B P : str) : Decision (rooted B P) :=
  decide (first_segment (PosixPath.normpath P) = B).

(** The base name as the specification words it: the name without one
    trailing [.pdf], and the whole name when it does not end in [.pdf]. *)
Definition strip_pdf_suffix (name : str) : str :=
  if endswith name (lit ".pdf")
  then take (length name - length (lit ".pdf")) name
  else name.

(** The directory prefix of a name: everything before its last
    separator, nothing when it has none. *)
Definition dirname (p : str) : str :=
  match rfind p PosixPath.sep with
  | Some i => take i p
  | None => []
  end.

(** The workspace path a file name is read or written under. *)
Definition workspace_path (filepath : str) : str :=
  if bool_decide (rooted (lit "files") filepath) then filepath
  else PosixPath.join (lit "files") filepath.

(** Two worlds agree on everything but the local file system. *)
Definition same_remote (w w' : world) : Prop :=
  environ w' = environ w ∧ ws_files w' = ws_files w
  ∧ ws_fails w' = ws_fails w ∧ ws_calls w' = ws_calls w.

(** The calls one run of the saving loop makes, for images numbered from
    [i]. *)
Definition page_writes {image : Type} (save_png : image → bytes)
    (base_name : str) (i : nat) (images : list image) : list ws_call :=
  imap (λ j img, WsWrite (workspace_path (page_file_name base_name (i + j)))
                         (save_png img)) images.

(** A plain segment: a name that can stand as one component of a path
    and names an entry of its own. *)
Definition plain_segment (B : str) : Prop :=
  B ≠ [] ∧ B ≠ PosixPath.dot ∧ B ≠ PosixPath.dotdot ∧ 47 ∉ B.

(** A path that is relative and never steps to a parent directory. *)
Definition descending (P : str) : Prop :=
  startswith P PosixPath.sep = false
  ∧ PosixPath.dotdot ∉ split_by PosixPath.sep P.

(** [sub] occurs in [s] at index [i]. *)
Definition occurs_at (sub s : str) (i : nat) : Prop :=
  ∃ pre post, s = pre ++ sub ++ post ∧ length pre = i.

(** The files of the store after a sequence of calls that all went
    through. *)
Definition store_after (calls : list ws_call) (files : gmap str bytes)
    : gmap str bytes :=
  foldl (λ m c, match c with
                | WsWrite path data => <[path := data]> m
                | WsRead _ => m
                end) files calls.

(** From [w] to [w'] nothing was taken away: the environment, the fault
    pattern of the store and the refused local paths are the same, the
    call log was only extended, and every workspace file, local file and
    local directory of [w] is still there (its content may be newer). *)
Definition grows (w w' : world) : Prop :=
  environ w' = environ w
  ∧ ws_fails w' = ws_fails w
  ∧ fs_denied w' = fs_denied w
  ∧ ws_calls w `prefix_of` ws_calls w'
  ∧ dom (ws_files w) ⊆ dom (ws_files w')
  ∧ dom (fs_files w) ⊆ dom (fs_files w')
  ∧ fs_dirs w ⊆ fs_dirs w'.

(** A computation that only ever adds to the world, whatever it
    returns. *)
Definition growing {A} (m : M A) : Prop := ∀ w, grows w (m w).2.

(** Worlds in which a run goes wrong. *)
Module Faults.

(** The input is not in the workspace. *)
Definition missing : world :=
  Sample.start [(lit "GPTSCRIPT_WORKSPACE_DIR", lit "/ws");
                (lit "PDF_FILE", lit "gone.pdf")]
               [(lit "files/other.pdf", Sample.pdf [Byte.x01])].

(** The input is not a PDF. *)
Definition not_a_pdf : world :=
  Sample.start [(lit "GPTSCRIPT_WORKSPACE_DIR", lit "/ws");
                (lit "PDF_FILE", lit "notes.txt")]
               [(lit "files/notes.txt", [Byte.x68; Byte.x69])].

(** Three pages, and a store that refuses its third call: the read and
    the first write go through, the second write does not. *)
Definition flaky : world :=
  {| environ := {[ lit "GPTSCRIPT_WORKSPACE_DIR" := lit "/ws";
                   lit "PDF_FILE" := lit "report.pdf" ]};
     ws_files := {[ lit "files/report.pdf" :=
                      Sample.pdf [Byte.x01; Byte.x02; Byte.x03] ]};
     ws_fails := λ n, Nat.eqb n 2; ws_calls := [];
     fs_dirs := ∅; fs_files := ∅; fs_denied := ∅ |}.

End Faults.

(** The first code point of a UTF-8 byte sequence and the bytes after
    it, read off the leading octet: one, two, three or four octets. *)
Definition decode_char (bs : bytes) : option (N * bytes) :=
  match bs with
  | [] => None
  | b0 :: r0 =>
      let n0 := Byte.to_N b0 in
      if n0 <? 128 then Some (n0, r0)
      else if n0 <? 224 then
        match r0 with
        | b1 :: r1 => Some ((n0 - 192) * 64 + (Byte.to_N b1 - 128), r1)
        | _ => None
        end
      else if n0 <? 240 then
        match r0 with
        | b1 :: b2 :: r2 =>
            Some ((n0 - 224) * 4096 + (Byte.to_N b1 - 128) * 64
                  + (Byte.to_N b2 - 128), r2)
        | _ => None
        end
      else
        match r0 with
        | b1 :: b2 :: b3 :: r3 =>
            Some ((n0 - 240) * 262144 + (Byte.to_N b1 - 128) * 4096
                  + (Byte.to_N b2 - 128) * 64 + (Byte.to_N b3 - 128), r3)
        | _ => None
        end
  end.

(** Arithmetic with quotients and remainders by constants. *)
Ltac divmod := zify; Z.to_euclidean_division_equations; lia.

(** The lengths of the literals of the source. *)
Ltac count_lits :=
  change (length (lit "_page_")) with 6%nat in *;
  change (length (lit ".png")) with 4%nat in *;
  change (length (lit ".pdf")) with 4%nat in *;
  change (length (lit "files")) with 5%nat in *;
  change (length PosixPath.sep) with 1%nat in *.

(** Goals about which exception a step can raise: case on the kinds a
    hypothesis allows, then find the kind in the list of the goal. *)
Ltac kinds :=
  repeat match goal with
         | H : _ ∈ _ :: _ |- _ =>
             apply elem_of_cons in H as [? | H]; [simplify_eq |]
         | H : _ ∈ [] |- _ => by apply elem_of_nil in H
         end;
  try done; rewrite ?elem_of_cons; tauto.

(** The operations of [M], to be unfolded when a computation is run by
    hand. *)
Create HintDb run discriminated.
#[global] Hint Unfold mbind M_bind bind lift mret M_ret ret raise getenv : run.

(** * Properties *)

(** ** The path normaliser *)

Lemma startswith_nil (s : str) : startswith s [] = true.
Proof. by destruct s. Qed.

Lemma split_go_sep_head (s cur : str) :
  head (split_go PosixPath.sep s cur 0) = Some (rev cur ++ first_segment s).
Proof.
  change PosixPath.sep with [47].
  revert cur. induction s as [|c s IH]; intros cur; cbn [split_go first_segment].
  - by rewrite app_nil_r.
  - cbn [startswith]. rewrite startswith_nil, andb_true_r.
    destruct (47 =? c) eqn:E; cbn [head].
    + by rewrite app_nil_r.
    + rewrite IH. cbn [rev]. by rewrite <- app_assoc.
Qed.

Lemma split_sep_head (p : str) :
  ∃ rest, split p PosixPath.sep = Ok (first_segment p :: rest).
Proof.
  unfold split, split_by. simpl.
  pose proof (split_go_sep_head p []) as H.
  destruct (split_go PosixPath.sep p [] 0) as [|x rest]; simplify_eq/=.
  by exists rest.
Qed.

Lemma prepend_base_path_unfold (B P : str) :
  prepend_base_path B P =
  Ok (if bool_decide (rooted B P) then P else PosixPath.join B P).
Proof.
  unfold prepend_base_path, rooted, PosixPath.str_eqb.
  destruct (split_sep_head (PosixPath.normpath P)) as [rest ->]. simpl.
  by repeat case_bool_decide.
Qed.

(** C1.  [prepend_base_path B P] is [P] itself when the first segment of
    the normal form of [P] is [B], and [os.path.join(B, P)] on the
    original [P] otherwise.  A deeper occurrence of [B] does not count:
    with base [files], [bar/files/my-file.txt] gets the prefix and
    [files/bar/files/my-file.txt] is returned as it is. *)
Theorem prepend_base_path_spec (B P : str) :
  prepend_base_path B P =
    Ok (if bool_decide (first_segment (PosixPath.normpath P) = B)
        then P else PosixPath.join B P)
  ∧ prepend_base_path (lit "files") (lit "bar/files/my-file.txt")
    = Ok (lit "files/bar/files/my-file.txt")
  ∧ prepend_base_path (lit "files") (lit "files/bar/files/my-file.txt")
    = Ok (lit "files/bar/files/my-file.txt").
Proof.
  split; [apply prepend_base_path_unfold | split; reflexivity].
Qed.

(** C5.  On a path already rooted under [B], a second application of
    [prepend_base_path B] returns what the first one returned. *)
Theorem prepend_base_path_idempotent (B P : str) :
  rooted B P →
  ∃ r, prepend_base_path B P = Ok r ∧ prepend_base_path B r = Ok r.
Proof.
  intros HR. exists P.
  rewrite prepend_base_path_unfold, bool_decide_eq_true_2; done.
Qed.

Lemma prepend_base_path_idempotent_witness :
  rooted (lit "files") (lit "files/./my-file.txt")
  ∧ ∃ r, prepend_base_path (lit "files") (lit "files/./my-file.txt") = Ok r
         ∧ prepend_base_path (lit "files") r = Ok r.
Proof.
  split; [reflexivity |].
  apply (prepend_base_path_idempotent (lit "files") (lit "files/./my-file.txt")).
  reflexivity.
Defined.

(** C6.  [prepend_base_path] returns a string on every pair of strings:
    the split of the normal form succeeds and has an element at index
    [0], and no exception leaves the function. *)
Theorem prepend_base_path_total (B P : str) :
  (∃ file_parts first,
      split (PosixPath.normpath P) PosixPath.sep = Ok file_parts
      ∧ index file_parts 0 = Ok first)
  ∧ ∃ r, prepend_base_path B P = Ok r.
Proof.
  split.
  - destruct (split_sep_head (PosixPath.normpath P)) as [rest ->].
    by eexists _, _.
  - rewrite prepend_base_path_unfold. by eexists.
Qed.

(** ** The base name *)

Lemma startswith_length (s p : str) :
  startswith s p = true → (length p ≤ length s)%nat.
Proof.
  revert s. induction p as [|a p IH]; intros [|b s]; simpl; try lia; try done.
  intros [_ H]%andb_true_iff. apply IH in H. lia.
Qed.

Lemma startswith_app (p s : str) : startswith (p ++ s) p = true.
Proof.
  induction p as [|a p IH]; simpl; [apply startswith_nil |].
  by rewrite N.eqb_refl.
Qed.

Lemma rfind_from_short (s sub : str) (i : nat) :
  (length s < length sub)%nat → rfind_from s sub i = None.
Proof.
  revert i. induction s as [|c s IH]; intros i Hlen.
  - destruct sub; [simpl in Hlen; lia | done].
  - cbn [rfind_from]. rewrite IH by (simpl in Hlen; lia).
    destruct (startswith (c :: s) sub) eqn:E; [|done].
    apply startswith_length in E. lia.
Qed.

(** The last occurrence of a non-empty [sub] in [x ++ sub] is the one at
    the end. *)
Lemma rfind_from_suffix (x sub : str) (i : nat) :
  sub ≠ [] → rfind_from (x ++ sub) sub i = Some (i + length x)%nat.
Proof.
  intros Hne. revert i. induction x as [|a x IH]; intros i.
  - destruct sub as [|c sub]; [done |]. cbn [app rfind_from].
    rewrite rfind_from_short by (simpl; lia).
    pose proof (startswith_app (c :: sub) []) as Hs.
    rewrite app_nil_r in Hs. rewrite Hs. f_equal. simpl. lia.
  - cbn [app rfind_from]. rewrite IH. f_equal. simpl. lia.
Qed.

(** What [rsplit(".pdf", 1)[0]] computes: the text before the last
    occurrence of [.pdf], wherever that occurrence is. *)
Lemma base_name_of_unfold (name : str) :
  base_name_of name =
  Ok (match rfind name (lit ".pdf") with
      | Some i => take i name
      | None => name
      end).
Proof.
  unfold base_name_of. cbn [rsplit lit fmap list_fmap list_ascii_of_string].
  cbn [rsplit_by]. change (N_of_ascii "." :: _) with (lit ".pdf").
  by destruct (rfind name (lit ".pdf")).
Qed.

(** A name that ends in [.pdf] loses exactly that suffix. *)
Lemma base_name_of_suffix (x : str) :
  base_name_of (x ++ lit ".pdf") = Ok x.
Proof.
  rewrite base_name_of_unfold. unfold rfind.
  rewrite rfind_from_suffix by done. simpl.
  by rewrite take_app_length.
Qed.

(** A name in which [.pdf] does not occur is its own base name. *)
Lemma base_name_of_absent (name : str) :
  rfind name (lit ".pdf") = None → base_name_of name = Ok name.
Proof. intros H. by rewrite base_name_of_unfold, H. Qed.

Lemma startswith_inv (s p : str) :
  startswith s p = true → ∃ y, s = p ++ y.
Proof.
  revert s. induction p as [|a p IH]; intros s H; [by exists s |].
  destruct s as [|b s]; [done |]. cbn [startswith] in H.
  apply andb_true_iff in H as [->%N.eqb_eq H].
  destruct (IH _ H) as [y ->]. by exists y.
Qed.

Lemma endswith_inv (s p : str) :
  endswith s p = true → ∃ x, s = x ++ p.
Proof.
  unfold endswith. intros [y Hy]%startswith_inv. exists (rev y).
  by rewrite <- (rev_involutive s), Hy, rev_app_distr, rev_involutive.
Qed.

Lemma endswith_app (x p : str) : endswith (x ++ p) p = true.
Proof. unfold endswith. rewrite rev_app_distr. apply startswith_app. Qed.

(** An occurrence found by [rfind] lies inside the string. *)
Lemma rfind_from_bound (s sub : str) (k j : nat) :
  rfind_from s sub k = Some j → (j + length sub ≤ k + length s)%nat.
Proof.
  revert k. induction s as [|c s IH]; intros k; cbn [rfind_from].
  - destruct sub; [| done]. cbn. intros ?; simplify_eq. lia.
  - destruct (rfind_from s sub (S k)) as [j'|] eqn:E.
    + intros ?; simplify_eq. apply IH in E. simpl. lia.
    + destruct (startswith (c :: s) sub) eqn:Es; [| done].
      intros ?; simplify_eq. apply startswith_length in Es. lia.
Qed.

Lemma strip_pdf_suffix_app (x : str) :
  strip_pdf_suffix (x ++ lit ".pdf") = x.
Proof.
  unfold strip_pdf_suffix. rewrite endswith_app, length_app.
  rewrite Nat.add_sub. apply take_app_length.
Qed.

(** The code and the specification give the same base name exactly on
    the names that end in [.pdf] and on those in which [.pdf] does not
    occur. *)
Lemma base_name_of_agrees_iff (name : str) :
  base_name_of name = Ok (strip_pdf_suffix name)
  ↔ endswith name (lit ".pdf") = true ∨ rfind name (lit ".pdf") = None.
Proof.
  split.
  - rewrite base_name_of_unfold.
    destruct (rfind name (lit ".pdf")) as [i|] eqn:Hr; [| by right].
    destruct (endswith name (lit ".pdf")) eqn:He; [by left |].
    unfold strip_pdf_suffix. rewrite He. intros ?; simplify_eq.
    apply rfind_from_bound in Hr.
    assert (length (take i name) = length name) as Hl by congruence.
    rewrite length_take in Hl. simpl in Hr. lia.
  - intros [He | Hr].
    + apply endswith_inv in He as [x ->].
      by rewrite base_name_of_suffix, strip_pdf_suffix_app.
    + rewrite (base_name_of_absent _ Hr). unfold strip_pdf_suffix.
      destruct (endswith name (lit ".pdf")) eqn:He; [| done].
      apply endswith_inv in He as [x ->]. unfold rfind in Hr.
      by rewrite rfind_from_suffix in Hr.
Qed.

(** A name of the form [d/x.pdf] keeps its directory in every page
    name. *)
Lemma page_names_keep_directory (d x : str) (i : nat) :
  base_name_of (d ++ PosixPath.sep ++ x ++ lit ".pdf")
  = Ok (d ++ PosixPath.sep ++ x)
  ∧ page_file_name (d ++ PosixPath.sep ++ x) i
    = d ++ PosixPath.sep ++ page_file_name x i.
Proof.
  split.
  - rewrite !app_assoc. apply base_name_of_suffix.
  - unfold page_file_name. by rewrite <- !app_assoc.
Qed.

(** C2.  The code cuts at the last occurrence of [.pdf], not only at a
    trailing one: [a.pdf.backup] does not end in [.pdf], yet its base
    name is [a], not the whole name, and the page of a run on it is
    named [a_page_0.png].  On [a.pdf] and on [notes] the code strips as
    the specification says. *)
Theorem base_name_cuts_inner_pdf :
  endswith (lit "a.pdf.backup") (lit ".pdf") = false
  ∧ strip_pdf_suffix (lit "a.pdf.backup") = lit "a.pdf.backup"
  ∧ base_name_of (lit "a.pdf.backup") = Ok (lit "a")
  ∧ base_name_of (lit "a.pdf.backup")
    ≠ Ok (strip_pdf_suffix (lit "a.pdf.backup"))
  ∧ base_name_of (lit "a.pdf") = Ok (lit "a")
  ∧ base_name_of (lit "notes") = Ok (lit "notes")
  ∧ (Sample.main Sample.backup).1
    = Ok {[ lit "images" := [lit "a_page_0.png"] ]}.
Proof.
  split; [reflexivity |]. split; [reflexivity |]. split; [reflexivity |].
  split; [| repeat split; vm_compute; reflexivity].
  rewrite base_name_of_agrees_iff.
  intros [H | H]; vm_compute in H; congruence.
Qed.

(** ** UTF-8 *)

(** The encoder on the boundaries of its four forms, on the euro sign
    and on a character outside the basic plane; surrogates are refused. *)
Lemma encode_utf8_examples :
  encode_utf8 (lit "a.png")
    = Ok [Byte.x61; Byte.x2e; Byte.x70; Byte.x6e; Byte.x67]
  ∧ encode_utf8 [0x7f] = Ok [Byte.x7f]
  ∧ encode_utf8 [0x80] = Ok [Byte.xc2; Byte.x80]
  ∧ encode_utf8 [0x7ff] = Ok [Byte.xdf; Byte.xbf]
  ∧ encode_utf8 [0x800] = Ok [Byte.xe0; Byte.xa0; Byte.x80]
  ∧ encode_utf8 [0x20ac] = Ok [Byte.xe2; Byte.x82; Byte.xac]
  ∧ encode_utf8 [0xffff] = Ok [Byte.xef; Byte.xbf; Byte.xbf]
  ∧ encode_utf8 [0x10000] = Ok [Byte.xf0; Byte.x90; Byte.x80; Byte.x80]
  ∧ encode_utf8 [0x1f600] = Ok [Byte.xf0; Byte.x9f; Byte.x98; Byte.x80]
  ∧ encode_utf8 [0x10ffff] = Ok [Byte.xf4; Byte.x8f; Byte.xbf; Byte.xbf]
  ∧ encode_utf8 [0x61; 0xd800] = Raise UnicodeEncodeError
  ∧ encode_utf8 [0xdfff] = Raise UnicodeEncodeError.
Proof. repeat split; reflexivity. Qed.

(** ASCII text is its own encoding. *)
Lemma encode_utf8_ascii (s : str) :
  Forall (λ c, c < 128) s → encode_utf8 s = Ok (octet <$> s).
Proof.
  induction 1 as [|c s Hc _ IH]; [done |].
  cbn [encode_utf8 fmap list_fmap]. unfold encode_char.
  apply N.ltb_lt in Hc. by rewrite Hc, IH.
Qed.

(** The encoding of a concatenation is the concatenation of the
    encodings. *)
Lemma encode_utf8_app (s t : str) (a b : bytes) :
  encode_utf8 s = Ok a → encode_utf8 t = Ok b →
  encode_utf8 (s ++ t) = Ok (a ++ b).
Proof.
  revert a. induction s as [|c s IH]; intros a Hs Ht.
  - cbn in Hs. by simplify_eq.
  - cbn [app encode_utf8] in *.
    destruct (encode_char c) as [x|]; [| done].
    destruct (encode_utf8 s) as [y|]; [| done]. simplify_eq.
    rewrite (IH y eq_refl Ht). by rewrite <- app_assoc.
Qed.

(** ** Running computations *)

Lemma bind_ok {A B} (m : M A) (k : A → M B) (w w' : world) (b : B) :
  (m ≫= k) w = (Ok b, w') →
  ∃ a w1, m w = (Ok a, w1) ∧ k a w1 = (Ok b, w').
Proof.
  unfold mbind, M_bind, bind.
  destruct (m w) as [[a|e] w1]; [by eexists _, _ | done].
Qed.

Lemma bind_eq_ok {A B} (m : M A) (k : A → M B) (w w1 : world) (a : A) :
  m w = (Ok a, w1) → (m ≫= k) w = k a w1.
Proof. unfold mbind, M_bind, bind. by intros ->. Qed.

Section Properties.

Context {page image : Type}.
Variable parse_pdf : bytes → option (list page).
Variable get_pixmap : page → Matrix → Pixmap.
Variable frombytes : str → N * N → bytes → image.
Variable save_png : image → bytes.

Abbreviation render := (Tool.render get_pixmap frombytes).
Abbreviation convert_loop := (Tool.convert_loop get_pixmap frombytes).
Abbreviation fitz_open := (Tool.fitz_open parse_pdf).
Abbreviation convert_pdf_to_images :=
  (Tool.convert_pdf_to_images parse_pdf get_pixmap frombytes).
Abbreviation save_loop := (Tool.save_loop save_png).
Abbreviation main := (Tool.main parse_pdf get_pixmap frombytes save_png).

(** ** The rasteriser *)

(** From page [k] on, the loop appends the renderings of the remaining
    pages, in order. *)
Lemma convert_loop_from (doc rest : list page) (dpi : Z) (k : nat)
    (images : list image) :
  drop k doc = rest →
  convert_loop doc dpi (seq k (length rest)) images
  = Ok (images ++ (render dpi <$> rest)).
Proof.
  revert k images. induction rest as [|p rest IH]; intros k images Hd.
  - simpl. by rewrite app_nil_r.
  - cbn [length seq Tool.convert_loop].
    assert (doc !! k = Some p) as Hk.
    { rewrite <- (Nat.add_0_r k), <- lookup_drop, Hd. done. }
    unfold index. rewrite Hk.
    rewrite (IH (S k)).
    + cbn [fmap list_fmap]. by rewrite <- app_assoc.
    + erewrite drop_S in Hd by done. by simplify_eq.
Qed.

(** Opening a local file that parses, then rendering all its pages. *)
Lemma convert_pdf_to_images_ok (pdf_path : str) (dpi : Z) (data : bytes)
    (doc : list page) (w : world) :
  fs_files w !! pdf_path = Some data →
  parse_pdf data = Some doc →
  convert_pdf_to_images pdf_path dpi w = (Ok (render dpi <$> doc), w).
Proof.
  intros Hfile Hparse.
  unfold Tool.convert_pdf_to_images, Tool.fitz_open.
  erewrite bind_eq_ok; last first.
  { erewrite bind_eq_ok; [| unfold read_local; by rewrite Hfile].
    by rewrite Hparse. }
  unfold lift. by rewrite (convert_loop_from doc doc dpi 0 []).
Qed.

(** C8.  The scale factor is [dpi / 72]; the matrix handed to the
    renderer scales both axes by it; the images come one per page, in
    page order.  The default [dpi] is [300], which gives the factor
    [4.166666666666667]. *)
Theorem convert_pdf_to_images_spec (pdf_path : str) (dpi : Z)
    (data : bytes) (doc : list page) (w : world) :
  (Z.abs dpi ≤ 2 ^ 53)%Z →
  fs_files w !! pdf_path = Some data →
  parse_pdf data = Some doc →
  let zoom := truediv dpi 72 in
  let mat := {| ma := zoom; mb := 0; mc := 0; md := zoom; me := 0; mf := 0 |} in
  convert_pdf_to_images pdf_path dpi w
  = (Ok ((λ p, let pix := get_pixmap p mat in
               frombytes (lit "RGB") (width pix, height pix) (samples pix))
         <$> doc), w)
  ∧ default_dpi = 300%Z
  ∧ truediv default_dpi 72 = 0x1.0aaaaaaaaaaabp+2%float.
Proof.
  intros _ Hfile Hparse zoom mat. split; [| split; reflexivity].
  by rewrite (convert_pdf_to_images_ok _ dpi _ _ _ Hfile Hparse).
Qed.

(** ** Writing to the workspace *)

(** C9.  [save_to_gptscript_workspace] hands to the workspace client the
    UTF-8 encoding of a [str] content and the very bytes of a [bytes]
    content, under the path [prepend_base_path("files", filepath)]; a
    [str] that cannot be encoded is not written at all.  The client is
    called with exactly that path and those bytes, and when the call
    succeeds the store holds them under that path. *)
Theorem save_to_gptscript_workspace_spec (filepath : str) (c : content)
    (w : world) :
  ∃ wksp_file_path,
    prepend_base_path (lit "files") filepath = Ok wksp_file_path
    ∧ match c with
      | CBytes b =>
          save_to_gptscript_workspace filepath c w
          = write_file_in_workspace wksp_file_path b w
      | CStr s =>
          match encode_utf8 s with
          | Ok data =>
              save_to_gptscript_workspace filepath c w
              = write_file_in_workspace wksp_file_path data w
          | Raise e => save_to_gptscript_workspace filepath c w = (Raise e, w)
          end
      end
    ∧ ∀ data,
        let r := write_file_in_workspace wksp_file_path data w in
        ws_calls r.2 = ws_calls w ++ [WsWrite wksp_file_path data]
        ∧ ws_files r.2 !! wksp_file_path
          = if is_ok r.1 then Some data else ws_files w !! wksp_file_path.
Proof.
  pose proof (prepend_base_path_unfold (lit "files") filepath) as Hp.
  eexists. split; [exact Hp |]. split.
  - unfold save_to_gptscript_workspace. autounfold with run.
    rewrite Hp. destruct c as [b|s]; [done |].
    by destruct (encode_utf8 s) as [data|e].
  - intros data. unfold write_file_in_workspace.
    destruct (ws_fails w (length (ws_calls w))); cbn; [done |].
    split; [done |]. apply lookup_insert_eq.
Qed.

(** ** Frames: what each step leaves alone *)

Lemma prepend_files (filepath : str) :
  prepend_base_path (lit "files") filepath = Ok (workspace_path filepath).
Proof. apply prepend_base_path_unfold. Qed.

Lemma same_remote_refl (w : world) : same_remote w w.
Proof. by repeat split. Qed.

Lemma makedirs_frame (path : str) (w w' : world) (r : result unit) :
  makedirs path w = (r, w') → same_remote w w'.
Proof.
  unfold makedirs. repeat case_bool_decide; intros; simplify_eq;
    by repeat split.
Qed.

Lemma create_scratch_dir_frame (w w' : world) (r : result str) :
  create_scratch_dir w = (r, w') → same_remote w w'.
Proof.
  unfold create_scratch_dir. autounfold with run.
  destruct (environ w !! _); [| intros; simplify_eq; apply same_remote_refl].
  destruct (makedirs _ w) as [[[]|e] w1] eqn:E; intros; simplify_eq;
    by eapply makedirs_frame.
Qed.

Lemma create_scratch_dir_unset (w : world) :
  environ w !! lit "GPTSCRIPT_WORKSPACE_DIR" = None →
  create_scratch_dir w = (Raise TypeError, w).
Proof.
  intros H.
  unfold create_scratch_dir. autounfold with run.
  by rewrite H.
Qed.

Lemma ws_writes_read (w : world) (path : str) (files : gmap str bytes) :
  ws_writes (called (WsRead path) files w) = ws_writes w.
Proof.
  unfold ws_writes, called. cbn [ws_calls].
  rewrite filter_app. cbn. rewrite decide_False by done. apply app_nil_r.
Qed.

Lemma ws_writes_same (w w' : world) :
  same_remote w w' → ws_writes w' = ws_writes w.
Proof. intros (_ & _ & _ & H). unfold ws_writes. by rewrite H. Qed.

(** [open_wb] changes local files only. *)
Lemma open_wb_frame (path : str) (data : bytes) (w w' : world)
    (r : result unit) :
  open_wb path data w = (r, w') → same_remote w w'.
Proof.
  unfold open_wb. case_bool_decide; [intros; simplify_eq; by repeat split |].
  destruct (_ || _); [intros; simplify_eq; by repeat split |].
  case_bool_decide; intros; simplify_eq; by repeat split.
Qed.

Lemma open_wb_ok (path : str) (data : bytes) (w w' : world) :
  open_wb path data w = (Ok (), w') → fs_files w' !! path = Some data.
Proof.
  unfold open_wb. case_bool_decide; [done |].
  destruct (_ || _); [done |].
  case_bool_decide; [done |]. intros; simplify_eq. apply lookup_insert_eq.
Qed.

(** What a successful copy has done: one read of the workspace path of
    the file, and one local file, named by the last component only. *)
Lemma copy_pdf_ok (scratch_dir filepath local : str) (w w' : world) :
  copy_pdf_from_gptscript_workspace scratch_dir filepath w = (Ok local, w') →
  ∃ data,
    ws_files w !! workspace_path filepath = Some data
    ∧ local = PosixPath.join scratch_dir (PosixPath.basename filepath)
    ∧ fs_files w' !! local = Some data
    ∧ environ w' = environ w
    ∧ ws_files w' = ws_files w
    ∧ ws_fails w' = ws_fails w
    ∧ ws_calls w' = ws_calls w ++ [WsRead (workspace_path filepath)].
Proof.
  unfold copy_pdf_from_gptscript_workspace. rewrite prepend_files.
  autounfold with run. unfold read_file_in_workspace.
  destruct (ws_fails w _); [done |].
  destruct (ws_files w !! _) as [data|] eqn:Hd; [| done].
  destruct (open_wb _ data _) as [[[]|e] w1] eqn:Ho; [| done].
  intros ?; simplify_eq. exists data.
  pose proof (open_wb_ok _ _ _ _ Ho) as Hl.
  apply open_wb_frame in Ho as (He & Hf & Hfl & Hc).
  cbn in He, Hf, Hfl, Hc. by repeat split.
Qed.

(** A copy that fails has written nothing to the workspace, and has
    called the store at most once. *)
Lemma copy_pdf_raise (scratch_dir filepath : str) (w w' : world) (e : exn) :
  copy_pdf_from_gptscript_workspace scratch_dir filepath w = (Raise e, w') →
  ws_writes w' = ws_writes w
  ∧ ws_files w' = ws_files w
  ∧ (length (ws_calls w') ≤ S (length (ws_calls w)))%nat.
Proof.
  unfold copy_pdf_from_gptscript_workspace. rewrite prepend_files.
  autounfold with run. unfold read_file_in_workspace.
  assert (∀ p, length (ws_calls (called (WsRead p) (ws_files w) w))
               = S (length (ws_calls w))) as Hlen.
  { intros p. cbn. rewrite length_app. simpl. lia. }
  destruct (ws_fails w _).
  { intros ?; simplify_eq. rewrite ws_writes_read, Hlen. done. }
  destruct (ws_files w !! _) as [data|] eqn:Hd.
  2:{ intros ?; simplify_eq. rewrite ws_writes_read, Hlen. done. }
  destruct (open_wb _ data _) as [[[]|e'] w1] eqn:Ho; [done |].
  intros ?; simplify_eq.
  apply open_wb_frame in Ho as Hs.
  rewrite (ws_writes_same _ _ Hs), ws_writes_read.
  destruct Hs as (_ & -> & _ & ->). by rewrite Hlen.
Qed.

(** ** The conversion, run *)

Lemma convert_pdf_to_images_inv (pdf_path : str) (dpi : Z)
    (images : list image) (w w' : world) :
  convert_pdf_to_images pdf_path dpi w = (Ok images, w') →
  w' = w ∧ ∃ data doc,
    fs_files w !! pdf_path = Some data ∧ parse_pdf data = Some doc
    ∧ images = render dpi <$> doc.
Proof.
  intros H.
  destruct (fs_files w !! pdf_path) as [data|] eqn:Hfile.
  - destruct (parse_pdf data) as [doc|] eqn:Hparse.
    + rewrite (convert_pdf_to_images_ok _ _ _ _ _ Hfile Hparse) in H.
      simplify_eq. split; [done |]. by exists data, doc.
    + revert H. unfold Tool.convert_pdf_to_images, Tool.fitz_open, read_local.
      autounfold with run. by rewrite Hfile, Hparse.
  - revert H. unfold Tool.convert_pdf_to_images, Tool.fitz_open, read_local.
    autounfold with run. by rewrite Hfile.
Qed.

Lemma page_writes_cons (base_name : str) (i : nat) (img : image)
    (images : list image) :
  page_writes save_png base_name i (img :: images)
  = WsWrite (workspace_path (page_file_name base_name i)) (save_png img)
    :: page_writes save_png base_name (S i) images.
Proof.
  unfold page_writes. cbn [imap]. rewrite Nat.add_0_r. f_equal.
  apply imap_ext. intros j x _. simpl. do 3 f_equal. lia.
Qed.

Lemma save_step (file_name : str) (b : bytes) (w : world) :
  save_to_gptscript_workspace file_name (CBytes b) w
  = write_file_in_workspace (workspace_path file_name) b w.
Proof.
  unfold save_to_gptscript_workspace. rewrite prepend_files. done.
Qed.

(** With no image to save the loop returns at once. *)
Lemma save_loop_nil (base_name : str) (i : nat) (acc : list str) (w : world) :
  save_loop base_name i [] acc w = (Ok acc, w).
Proof. done. Qed.

(** A saving loop that completes has produced the names of its pages in
    order, and made exactly one write per page, in the same order. *)
Lemma save_loop_ok (base_name : str) (images : list image) (i : nat)
    (acc generated : list str) (w w' : world) :
  save_loop base_name i images acc w = (Ok generated, w') →
  generated = acc ++ (page_file_name base_name <$> seq i (length images))
  ∧ ws_calls w' = ws_calls w ++ page_writes save_png base_name i images
  ∧ fs_files w' = fs_files w.
Proof.
  revert i acc w. induction images as [|img images IH]; intros i acc w H.
  - rewrite save_loop_nil in H. simplify_eq.
    unfold page_writes. cbn. by rewrite !app_nil_r.
  - cbn [Tool.save_loop] in H. apply bind_ok in H as ([] & w1 & Hs & H).
    rewrite save_step in Hs. unfold write_file_in_workspace in Hs.
    destruct (ws_fails w _); [done |]. simplify_eq.
    apply IH in H as (-> & Hc & Hf). repeat split.
    + cbn [length seq fmap list_fmap]. by rewrite <- app_assoc.
    + rewrite Hc, page_writes_cons. cbn. by rewrite <- app_assoc.
    + by rewrite Hf.
Qed.

Lemma base_name_of_total (name : str) : ∃ b, base_name_of name = Ok b.
Proof. rewrite base_name_of_unfold. by eexists. Qed.

(** [main], one step at a time. *)
Lemma main_unfold (w : world) :
  main w =
  match create_scratch_dir w with
  | (Raise e, w1) => (Raise e, w1)
  | (Ok scratch_dir, w1) =>
      match environ w1 !! lit "PDF_FILE" with
      | None => (Raise AttributeError, w1)
      | Some name =>
          match base_name_of name with
          | Raise e => (Raise e, w1)
          | Ok base_name =>
              match copy_pdf_from_gptscript_workspace scratch_dir name w1 with
              | (Raise e, w2) => (Raise e, w2)
              | (Ok local, w2) =>
                  match convert_pdf_to_images local default_dpi w2 with
                  | (Raise e, w3) => (Raise e, w3)
                  | (Ok images, w3) =>
                      match save_loop base_name 0 images [] w3 with
                      | (Raise e, w4) => (Raise e, w4)
                      | (Ok generated, w4) =>
                          (Ok {[ images_key := generated ]}, w4)
                      end
                  end
              end
          end
      end
  end.
Proof.
  unfold Tool.main. autounfold with run.
  destruct (create_scratch_dir w) as [[scratch_dir|e] w1]; [| done].
  destruct (environ w1 !! _) as [name|]; [| done].
  destruct (base_name_of name) as [base_name|e]; [| done].
  destruct (copy_pdf_from_gptscript_workspace _ _ _) as [[local|e] w2]; [| done].
  destruct (Tool.convert_pdf_to_images _ _ _ _ _ _) as [[images|e] w3]; [| done].
  by destruct (Tool.save_loop _ _ _ _ _ _) as [[generated|e] w4].
Qed.

(** ** Paths that name no file *)

Lemma basename_trailing_sep (x : str) :
  PosixPath.basename (x ++ PosixPath.sep) = [].
Proof.
  unfold PosixPath.basename, rfind.
  rewrite rfind_from_suffix by done.
  apply drop_ge. rewrite length_app. simpl. lia.
Qed.

(** [os.path.join(d, "")] never names a regular file. *)
Lemma basename_join_empty (d : str) :
  PosixPath.basename (PosixPath.join d []) = [].
Proof.
  unfold PosixPath.join. cbn [startswith PosixPath.sep lit fmap list_fmap
    list_ascii_of_string].
  change (N_of_ascii "/" :: []) with PosixPath.sep.
  unfold PosixPath.str_eqb. case_bool_decide as Hd; cbn [orb].
  - by subst d.
  - destruct (endswith d PosixPath.sep) eqn:E.
    + apply endswith_inv in E as [x ->].
      rewrite app_nil_r. apply basename_trailing_sep.
    + rewrite app_nil_r. apply basename_trailing_sep.
Qed.

Lemma open_wb_no_leaf (path : str) (data : bytes) (w : world) :
  PosixPath.basename path = [] → ∃ e, open_wb path data w = (Raise e, w).
Proof.
  intros Hb. unfold open_wb. rewrite Hb.
  case_bool_decide; [by eexists |].
  rewrite bool_decide_eq_true_2 by done. by eexists.
Qed.

(** The empty file name cannot be staged. *)
Lemma copy_pdf_empty (scratch_dir : str) (w : world) :
  ∃ e w', copy_pdf_from_gptscript_workspace scratch_dir [] w = (Raise e, w').
Proof.
  destruct (copy_pdf_from_gptscript_workspace scratch_dir [] w)
    as [[local|e] w'] eqn:E; [| by eexists _, _].
  exfalso. revert E.
  unfold copy_pdf_from_gptscript_workspace. rewrite prepend_files.
  autounfold with run. unfold read_file_in_workspace.
  destruct (ws_fails w _); [done |].
  destruct (ws_files w !! _) as [data|]; [| done].
  change (PosixPath.basename []) with (@nil N).
  destruct (open_wb_no_leaf (PosixPath.join scratch_dir []) data
              (called (WsRead (workspace_path [])) (ws_files w) w)
              (basename_join_empty scratch_dir)) as [e ->].
  done.
Qed.

(** ** The orchestrator *)

(** C3.  A run that succeeds returns the dict with the one key [images],
    bound to the names [base_name_page_i.png] for [i] from [0] to [n-1]
    in this order, where [n] is the number of pages of the document read
    from the workspace.  For [report.pdf] and three pages these are
    [report_page_0.png], [report_page_1.png], [report_page_2.png]. *)
Theorem main_images (w w' : world) (r : gmap str (list str)) :
  main w = (Ok r, w') →
  (∃ pdf_file_name base_name wksp_file_path data doc,
      environ w !! lit "PDF_FILE" = Some pdf_file_name
      ∧ base_name_of pdf_file_name = Ok base_name
      ∧ prepend_base_path (lit "files") pdf_file_name = Ok wksp_file_path
      ∧ ws_files w !! wksp_file_path = Some data
      ∧ parse_pdf data = Some doc
      ∧ r = {[ lit "images" :=
                 (λ i, base_name ++ lit "_page_" ++ of_nat i ++ lit ".png")
                 <$> seq 0 (length doc) ]})
  ∧ base_name_of (lit "report.pdf") = Ok (lit "report")
  ∧ (λ i, lit "report" ++ lit "_page_" ++ of_nat i ++ lit ".png") <$> seq 0 3
    = [lit "report_page_0.png"; lit "report_page_1.png";
       lit "report_page_2.png"].
Proof.
  intros H. split; [| split; reflexivity].
  rewrite main_unfold in H.
  destruct (create_scratch_dir w) as [[scratch_dir|e] w1] eqn:Hc; [| done].
  apply create_scratch_dir_frame in Hc as (He1 & Hf1 & _ & _).
  destruct (environ w1 !! _) as [name|] eqn:Hn; [| done].
  destruct (base_name_of name) as [base_name|e] eqn:Hb; [| done].
  destruct (copy_pdf_from_gptscript_workspace _ _ _)
    as [[local|e] w2] eqn:Hcp; [| done].
  apply copy_pdf_ok in Hcp as (data & Hd & _ & Hl & _).
  destruct (Tool.convert_pdf_to_images _ _ _ _ _ _)
    as [[images|e] w3] eqn:Hcv; [| done].
  apply convert_pdf_to_images_inv in Hcv as (-> & data' & doc & Hl' & Hp & ->).
  destruct (Tool.save_loop _ _ _ _ _ _) as [[generated|e] w4] eqn:Hs; [| done].
  apply save_loop_ok in Hs as (-> & _ & _). simplify_eq.
  exists name, base_name, (workspace_path name), data, doc.
  rewrite <- He1, <- Hf1, length_fmap. repeat split; try done.
  apply prepend_files.
Qed.

(** C4.  When the staged input is a PDF of zero pages, the conversion
    returns the empty list without raising, the run returns
    [{"images": []}], and the workspace has not been written to. *)
Theorem zero_page_run (w w1 w2 : world) (scratch_dir name local : str)
    (data : bytes) :
  create_scratch_dir w = (Ok scratch_dir, w1) →
  environ w !! lit "PDF_FILE" = Some name →
  copy_pdf_from_gptscript_workspace scratch_dir name w1 = (Ok local, w2) →
  fs_files w2 !! local = Some data →
  parse_pdf data = Some [] →
  convert_pdf_to_images local default_dpi w2 = (Ok [], w2)
  ∧ main w = (Ok {[ lit "images" := [] ]}, w2)
  ∧ ws_writes w2 = ws_writes w
  ∧ ws_files w2 = ws_files w.
Proof.
  intros Hc Hn Hcp Hl Hp.
  pose proof (convert_pdf_to_images_ok _ default_dpi _ _ _ Hl Hp) as Hcv.
  cbn [fmap list_fmap] in Hcv. split; [done |].
  pose proof (create_scratch_dir_frame _ _ _ Hc) as (He1 & Hf1 & _ & Hc1).
  destruct (base_name_of_total name) as [base_name Hb].
  split.
  - rewrite main_unfold, Hc, He1, Hn, Hb, Hcp, Hcv. done.
  - apply copy_pdf_ok in Hcp as (_ & _ & _ & _ & _ & Hf2 & _ & Hc2).
    unfold ws_writes. rewrite Hc2, Hc1, filter_app, Hf2, Hf1. cbn.
    rewrite decide_False by done. by rewrite app_nil_r.
Qed.

(** C7.  When the workspace-root variable is not set, or the
    input-file-name variable is not set or is empty, the run ends on an
    exception: it returns no result, has written nothing to the
    workspace, and has called the store at most once. *)
Theorem main_aborts_without_input (w : world) :
  environ w !! lit "GPTSCRIPT_WORKSPACE_DIR" = None
  ∨ environ w !! lit "PDF_FILE" = None
  ∨ environ w !! lit "PDF_FILE" = Some [] →
  ∃ e w', main w = (Raise e, w')
          ∧ ws_writes w' = ws_writes w
          ∧ ws_files w' = ws_files w
          ∧ (length (ws_calls w') ≤ S (length (ws_calls w)))%nat.
Proof.
  intros H. rewrite main_unfold.
  destruct (create_scratch_dir w) as [[scratch_dir|e] w1] eqn:Hc.
  2:{ exists e, w1.
      apply create_scratch_dir_frame in Hc as (_ & Hf1 & _ & Hc1).
      unfold ws_writes. rewrite Hc1, Hf1. repeat split; lia. }
  destruct H as [H | H].
  { by rewrite (create_scratch_dir_unset _ H) in Hc. }
  apply create_scratch_dir_frame in Hc as (He1 & Hf1 & _ & Hc1).
  rewrite He1.
  destruct H as [-> | ->].
  - exists AttributeError, w1. unfold ws_writes. rewrite Hc1, Hf1.
    repeat split; lia.
  - change (base_name_of []) with (Ok (@nil N)).
    destruct (copy_pdf_empty scratch_dir w1) as (e & w2 & Hcp).
    rewrite Hcp. exists e, w2.
    apply copy_pdf_raise in Hcp as (Hw & Hf & Hlen).
    unfold ws_writes in *. rewrite Hw, Hf, Hc1, Hf1. rewrite Hc1 in Hlen.
    done.
Qed.

(** Everything a successful run has done: the local copy sits in the
    scratch directory under the last component of the input name; the
    store was called once to read the input and once per page to write
    it, in page order, each write under the workspace path of the name
    that is returned for the page. *)
Lemma main_trace (w w' : world) (r : gmap str (list str)) :
  main w = (Ok r, w') →
  ∃ dir name base_name data doc,
    environ w !! lit "GPTSCRIPT_WORKSPACE_DIR" = Some dir
    ∧ environ w !! lit "PDF_FILE" = Some name
    ∧ base_name_of name = Ok base_name
    ∧ parse_pdf data = Some doc
    ∧ fs_files w' !! PosixPath.join (PosixPath.join dir (lit "scratch"))
                                    (PosixPath.basename name) = Some data
    ∧ ws_calls w'
      = ws_calls w ++ WsRead (workspace_path name)
          :: page_writes save_png base_name 0 (render default_dpi <$> doc)
    ∧ r = {[ lit "images" := page_file_name base_name <$> seq 0 (length doc) ]}.
Proof.
  intros H. rewrite main_unfold in H.
  destruct (create_scratch_dir w) as [[scratch_dir|e] w1] eqn:Hc; [| done].
  pose proof (create_scratch_dir_frame _ _ _ Hc) as (He1 & _ & _ & Hc1).
  assert (∃ dir, environ w !! lit "GPTSCRIPT_WORKSPACE_DIR" = Some dir
                 ∧ scratch_dir = PosixPath.join dir (lit "scratch"))
    as (dir & Hdir & ->).
  { revert Hc. unfold create_scratch_dir. autounfold with run.
    destruct (environ w !! _) as [dir|]; [| done].
    destruct (makedirs _ w) as [[[]|e] w0]; [| done].
    intros ?; simplify_eq. by exists dir. }
  destruct (environ w1 !! _) as [name|] eqn:Hn; [| done].
  destruct (base_name_of name) as [base_name|e] eqn:Hb; [| done].
  destruct (copy_pdf_from_gptscript_workspace _ _ _)
    as [[local|e] w2] eqn:Hcp; [| done].
  apply copy_pdf_ok in Hcp as (data & _ & -> & Hl & _ & _ & _ & Hc2).
  destruct (Tool.convert_pdf_to_images _ _ _ _ _ _)
    as [[images|e] w3] eqn:Hcv; [| done].
  apply convert_pdf_to_images_inv in Hcv as (-> & data' & doc & Hl' & Hp & ->).
  destruct (Tool.save_loop _ _ _ _ _ _) as [[generated|e] w4] eqn:Hs; [| done].
  apply save_loop_ok in Hs as (-> & Hc4 & Hf4). simplify_eq.
  exists dir, name, base_name, data, doc.
  rewrite He1 in Hn.
  rewrite Hf4, Hc4, Hc2, Hc1, length_fmap, <- app_assoc.
  by repeat split.
Qed.

End Properties.

(** ** The sample runs *)

Lemma prepend_base_path_examples :
  prepend_base_path (lit "files") (lit "my-file.txt")
    = Ok (lit "files/my-file.txt")
  ∧ prepend_base_path (lit "files") (lit "files/my-file.txt")
    = Ok (lit "files/my-file.txt")
  ∧ prepend_base_path (lit "files") (lit "foo/my-file.txt")
    = Ok (lit "files/foo/my-file.txt")
  ∧ prepend_base_path (lit "files") (lit "/abs/my-file.txt")
    = Ok (lit "/abs/my-file.txt")
  ∧ prepend_base_path (lit "files") (lit "./files/my-file.txt")
    = Ok (lit "./files/my-file.txt")
  ∧ prepend_base_path (lit "files") []
    = Ok (lit "files/").
Proof. repeat split; reflexivity. Qed.

Lemma main_images_witness :
  Sample.main Sample.report
  = (Ok {[ lit "images" := [lit "report_page_0.png"; lit "report_page_1.png";
                            lit "report_page_2.png"] ]},
     (Sample.main Sample.report).2)
  ∧ ((∃ pdf_file_name base_name wksp_file_path data doc,
         environ Sample.report !! lit "PDF_FILE" = Some pdf_file_name
         ∧ base_name_of pdf_file_name = Ok base_name
         ∧ prepend_base_path (lit "files") pdf_file_name = Ok wksp_file_path
         ∧ ws_files Sample.report !! wksp_file_path = Some data
         ∧ Sample.parse_pdf data = Some doc
         ∧ {[ lit "images" := [lit "report_page_0.png";
                               lit "report_page_1.png";
                               lit "report_page_2.png"] ]}
           = ({[ lit "images" :=
                  (λ i, base_name ++ lit "_page_" ++ of_nat i ++ lit ".png")
                  <$> seq 0 (length doc) ]} : gmap str (list str)))
     ∧ base_name_of (lit "report.pdf") = Ok (lit "report")
     ∧ (λ i, lit "report" ++ lit "_page_" ++ of_nat i ++ lit ".png")
       <$> seq 0 3
       = [lit "report_page_0.png"; lit "report_page_1.png";
          lit "report_page_2.png"]).
Proof.
  assert (Sample.main Sample.report
          = (Ok {[ lit "images" := [lit "report_page_0.png";
                                    lit "report_page_1.png";
                                    lit "report_page_2.png"] ]},
             (Sample.main Sample.report).2)) as H
    by (vm_compute; reflexivity).
  split; [exact H |].
  exact (main_images Sample.parse_pdf Sample.get_pixmap Sample.frombytes
           Sample.save_png Sample.report _ _ H).
Defined.

Lemma zero_page_run_witness :
  let w := Sample.blank in
  let scratch_dir := lit "/ws/scratch" in
  let w1 := (create_scratch_dir w).2 in
  let local := lit "/ws/scratch/blank.pdf" in
  let w2 :=
    (copy_pdf_from_gptscript_workspace scratch_dir (lit "blank.pdf") w1).2 in
  create_scratch_dir w = (Ok scratch_dir, w1)
  ∧ environ w !! lit "PDF_FILE" = Some (lit "blank.pdf")
  ∧ copy_pdf_from_gptscript_workspace scratch_dir (lit "blank.pdf") w1
    = (Ok local, w2)
  ∧ fs_files w2 !! local = Some (Sample.pdf [])
  ∧ Sample.parse_pdf (Sample.pdf []) = Some []
  ∧ (Sample.convert_pdf_to_images local default_dpi w2 = (Ok [], w2)
     ∧ Sample.main w = (Ok {[ lit "images" := [] ]}, w2)
     ∧ ws_writes w2 = ws_writes w
     ∧ ws_files w2 = ws_files w).
Proof.
  intros w scratch_dir w1 local w2.
  assert (create_scratch_dir w = (Ok scratch_dir, w1)) as H1
    by (vm_compute; reflexivity).
  assert (environ w !! lit "PDF_FILE" = Some (lit "blank.pdf")) as H2
    by (vm_compute; reflexivity).
  assert (copy_pdf_from_gptscript_workspace scratch_dir (lit "blank.pdf") w1
          = (Ok local, w2)) as H3 by (vm_compute; reflexivity).
  assert (fs_files w2 !! local = Some (Sample.pdf [])) as H4
    by (vm_compute; reflexivity).
  assert (Sample.parse_pdf (Sample.pdf []) = Some []) as H5 by reflexivity.
  repeat (split; [assumption |]).
  exact (zero_page_run Sample.parse_pdf Sample.get_pixmap Sample.frombytes
           Sample.save_png w w1 w2 scratch_dir (lit "blank.pdf") local
           (Sample.pdf []) H1 H2 H3 H4 H5).
Defined.

Lemma main_aborts_without_input_witness :
  (environ Sample.empty_name !! lit "GPTSCRIPT_WORKSPACE_DIR" = None
   ∨ environ Sample.empty_name !! lit "PDF_FILE" = None
   ∨ environ Sample.empty_name !! lit "PDF_FILE" = Some [])
  ∧ ∃ e w', Sample.main Sample.empty_name = (Raise e, w')
            ∧ ws_writes w' = ws_writes Sample.empty_name
            ∧ ws_files w' = ws_files Sample.empty_name
            ∧ (length (ws_calls w')
               ≤ S (length (ws_calls Sample.empty_name)))%nat.
Proof.
  assert (environ Sample.empty_name !! lit "GPTSCRIPT_WORKSPACE_DIR" = None
          ∨ environ Sample.empty_name !! lit "PDF_FILE" = None
          ∨ environ Sample.empty_name !! lit "PDF_FILE" = Some []) as H
    by (right; right; vm_compute; reflexivity).
  split; [exact H |].
  exact (main_aborts_without_input Sample.parse_pdf Sample.get_pixmap
           Sample.frombytes Sample.save_png Sample.empty_name H).
Defined.

(** With the workspace-root variable set to the empty string the run does
    not abort: the scratch directory is the relative path [scratch], the
    input is converted and its page is written to the workspace. *)
Lemma empty_root_runs :
  ¬ (∀ w : world,
       environ w !! lit "GPTSCRIPT_WORKSPACE_DIR" = None
       ∨ environ w !! lit "GPTSCRIPT_WORKSPACE_DIR" = Some []
       ∨ environ w !! lit "PDF_FILE" = None
       ∨ environ w !! lit "PDF_FILE" = Some [] →
       ∃ e w', Sample.main w = (Raise e, w')
               ∧ ws_writes w' = ws_writes w).
Proof.
  intros H.
  destruct (H Sample.empty_root) as (e & w' & Hm & _).
  { right; left. vm_compute. reflexivity. }
  vm_compute in Hm. discriminate Hm.
Qed.

Lemma empty_root_trace :
  (Sample.main Sample.empty_root).1 = Ok {[ lit "images" := [lit "a_page_0.png"] ]}
  ∧ ws_writes (Sample.main Sample.empty_root).2
    = [WsWrite (lit "files/a_page_0.png") (Sample.save_png [Byte.x01; Byte.x01; Byte.x01])]
  ∧ fs_dirs (Sample.main Sample.empty_root).2 = {[ lit "scratch" ]}.
Proof. repeat split; vm_compute; reflexivity. Qed.

Lemma convert_pdf_to_images_spec_witness :
  let w := (Sample.main Sample.report).2 in
  let pdf_path := lit "/ws/scratch/report.pdf" in
  let data := Sample.pdf [Byte.x01; Byte.x02; Byte.x03] in
  let doc := [Byte.x01; Byte.x02; Byte.x03] in
  (Z.abs 300 ≤ 2 ^ 53)%Z
  ∧ fs_files w !! pdf_path = Some data
  ∧ Sample.parse_pdf data = Some doc
  ∧ (let zoom := truediv 300 72 in
     let mat :=
       {| ma := zoom; mb := 0; mc := 0; md := zoom; me := 0; mf := 0 |} in
     Sample.convert_pdf_to_images pdf_path 300 w
     = (Ok ((λ p, let pix := Sample.get_pixmap p mat in
                  Sample.frombytes (lit "RGB") (width pix, height pix)
                    (samples pix)) <$> doc), w)
     ∧ default_dpi = 300%Z
     ∧ truediv default_dpi 72 = 0x1.0aaaaaaaaaaabp+2%float).
Proof.
  intros w pdf_path data doc.
  assert (Z.abs 300 ≤ 2 ^ 53)%Z as H1 by (vm_compute; discriminate).
  assert (fs_files w !! pdf_path = Some data) as H2
    by (vm_compute; reflexivity).
  assert (Sample.parse_pdf data = Some doc) as H3 by reflexivity.
  repeat (split; [assumption |]).
  exact (convert_pdf_to_images_spec Sample.parse_pdf Sample.get_pixmap
           Sample.frombytes pdf_path 300 data doc w H1 H2 H3).
Defined.

(** C10.  The local copy is named by the last component of the input
    name, and for [foo/report.pdf] the page is returned as
    [foo/report_page_0.png] and written under
    [files/foo/report_page_0.png].  For a PDF named [bar] in a directory
    named [foo.pdf], however, the base name is cut at the directory's
    [.pdf]: the page is returned as [foo_page_0.png] and written under
    [files/foo_page_0.png], outside the directory of the input. *)
Theorem directory_prefix_cut_at_pdf :
  (Sample.main Sample.nested).1
    = Ok {[ lit "images" := [lit "foo/report_page_0.png"] ]}
  ∧ ws_calls (Sample.main Sample.nested).2
    = [WsRead (lit "files/foo/report.pdf");
       WsWrite (lit "files/foo/report_page_0.png")
         (Sample.save_png [Byte.x01; Byte.x01; Byte.x01])]
  ∧ map_to_list (fs_files (Sample.main Sample.nested).2)
    = [(lit "/ws/scratch/report.pdf", Sample.pdf [Byte.x01])]
  ∧ dirname (lit "foo.pdf/bar") = lit "foo.pdf"
  ∧ (Sample.main Sample.pdf_directory).1
    = Ok {[ lit "images" := [lit "foo_page_0.png"] ]}
  ∧ dirname (lit "foo_page_0.png") = []
  ∧ ws_calls (Sample.main Sample.pdf_directory).2
    = [WsRead (lit "files/foo.pdf/bar");
       WsWrite (lit "files/foo_page_0.png")
         (Sample.save_png [Byte.x01; Byte.x01; Byte.x01])]
  ∧ map_to_list (fs_files (Sample.main Sample.pdf_directory).2)
    = [(lit "/ws/scratch/bar", Sample.pdf [Byte.x01])].
Proof. repeat split; vm_compute; reflexivity. Qed.

(** * Further properties *)

(** ** Searching and cutting strings *)

Lemma rfind_from_ge (s sub : str) (k j : nat) :
  rfind_from s sub k = Some j → (k ≤ j)%nat.
Proof.
  revert k. induction s as [|c s IH]; intros k; cbn [rfind_from].
  - destruct (startswith [] sub); intros; simplify_eq. lia.
  - destruct (rfind_from s sub (S k)) as [j'|] eqn:E.
    + intros ?; simplify_eq. apply IH in E. lia.
    + destruct (startswith (c :: s) sub); intros; simplify_eq. lia.
Qed.

(** What [rfind] returns is an occurrence. *)
Lemma rfind_from_sound (s sub : str) (k j : nat) :
  rfind_from s sub k = Some j →
  ∃ pre post, s = pre ++ sub ++ post ∧ j = (k + length pre)%nat.
Proof.
  revert k. induction s as [|c s IH]; intros k; cbn [rfind_from].
  - destruct sub; [| done]. cbn. intros ?; simplify_eq.
    exists [], []. split; [done | simpl; lia].
  - destruct (rfind_from s sub (S k)) as [j'|] eqn:E.
    + intros ?; simplify_eq. apply IH in E as (pre & post & -> & ->).
      exists (c :: pre), post. split; [done | simpl; lia].
    + destruct (startswith (c :: s) sub) eqn:Es; [| done].
      intros ?; simplify_eq. apply startswith_inv in Es as [y Hy].
      exists [], y. split; [done | simpl; lia].
Qed.

(** Every occurrence is found, and none lies after the one returned. *)
Lemma rfind_from_complete (pre sub post : str) (k : nat) :
  ∃ j, rfind_from (pre ++ sub ++ post) sub k = Some j
       ∧ (k + length pre ≤ j)%nat.
Proof.
  revert k. induction pre as [|a pre IH]; intros k.
  - cbn [app]. destruct (sub ++ post) as [|c s] eqn:E.
    + apply app_eq_nil in E as [-> ->]. exists k. cbn. split; [done | lia].
    + cbn [rfind_from].
      destruct (rfind_from s sub (S k)) as [j'|] eqn:Ej.
      * exists j'. split; [done |]. apply rfind_from_ge in Ej. simpl. lia.
      * rewrite <- E, startswith_app. exists k. split; [done | simpl; lia].
  - cbn [app rfind_from]. destruct (IH (S k)) as (j & -> & Hj).
    exists j. split; [done | simpl; lia].
Qed.

(** [rfind] returns the last occurrence: its result is an index at which
    [sub] occurs, no occurrence starts after it, and it is [None] exactly
    when [sub] does not occur at all. *)
Lemma rfind_last_occurrence (s sub : str) :
  match rfind s sub with
  | Some i => occurs_at sub s i ∧ ∀ j, occurs_at sub s j → (j ≤ i)%nat
  | None => ∀ j, ¬ occurs_at sub s j
  end.
Proof.
  unfold rfind. destruct (rfind_from s sub 0) as [i|] eqn:E.
  - split.
    + apply rfind_from_sound in E as (pre & post & -> & ->).
      by exists pre, post.
    + intros j (pre & post & -> & <-).
      destruct (rfind_from_complete pre sub post 0) as (i' & Hi' & Hle).
      rewrite E in Hi'. simplify_eq. lia.
  - intros j (pre & post & -> & _).
    destruct (rfind_from_complete pre sub post 0) as (i' & Hi' & _).
    by rewrite E in Hi'.
Qed.

(** ** More on the path normaliser *)

Lemma first_segment_no_sep (p : str) : 47 ∉ first_segment p.
Proof.
  induction p as [|c p IH]; cbn [first_segment]; [apply not_elem_of_nil |].
  destruct (47 =? c) eqn:E; [apply not_elem_of_nil |].
  apply N.eqb_neq in E. rewrite not_elem_of_cons. by split.
Qed.

Lemma first_segment_app (B Q : str) :
  47 ∉ B → first_segment (B ++ PosixPath.sep ++ Q) = B.
Proof.
  induction B as [|c B IH]; intros HB; [done |].
  apply not_elem_of_cons in HB as [Hc HB]. cbn [app first_segment].
  destruct (47 =? c) eqn:E; [by apply N.eqb_eq in E |].
  by rewrite IH.
Qed.

Lemma first_segment_id (B : str) : 47 ∉ B → first_segment B = B.
Proof.
  induction B as [|c B IH]; intros HB; [done |].
  apply not_elem_of_cons in HB as [Hc HB]. cbn [first_segment].
  destruct (47 =? c) eqn:E; [by apply N.eqb_eq in E |].
  by rewrite IH.
Qed.

(** X1.  An absolute file path comes back unchanged whatever the base:
    [os.path.join] drops the base in front of a path that starts with a
    separator, so the result is not under the base. *)
Theorem prepend_base_path_absolute (B P : str) :
  startswith P PosixPath.sep = true →
  prepend_base_path B P = Ok P.
Proof.
  intros HP. rewrite prepend_base_path_unfold.
  case_bool_decide; [done |]. unfold PosixPath.join. by rewrite HP.
Qed.

Lemma prepend_base_path_absolute_witness :
  startswith (lit "/etc/hosts") PosixPath.sep = true
  ∧ prepend_base_path (lit "files") (lit "/etc/hosts") = Ok (lit "/etc/hosts").
Proof.
  split; [reflexivity |].
  apply (prepend_base_path_absolute (lit "files") (lit "/etc/hosts")).
  reflexivity.
Defined.

(** X2.  A base that contains a separator is never recognised: the test
    compares the base with one segment of the path, so the base is
    prepended even to a path that already starts with it. *)
Theorem prepend_base_path_nested_base (B P : str) :
  47 ∈ B →
  prepend_base_path B P = Ok (PosixPath.join B P).
Proof.
  intros HB. rewrite prepend_base_path_unfold.
  case_bool_decide as HR; [| done].
  unfold rooted in HR. subst B. by apply first_segment_no_sep in HB.
Qed.

Lemma prepend_base_path_nested_base_witness :
  (47 ∈ lit "files/in")
  ∧ prepend_base_path (lit "files/in") (lit "files/in/a.txt")
    = Ok (PosixPath.join (lit "files/in") (lit "files/in/a.txt")).
Proof.
  assert (47 ∈ lit "files/in") as H by (vm_compute; set_solver).
  split; [exact H |].
  exact (prepend_base_path_nested_base (lit "files/in") (lit "files/in/a.txt") H).
Defined.

(** ** Splitting and joining *)

Lemma split_go_nonempty (sep s cur : str) (k : nat) : split_go sep s cur k ≠ [].
Proof.
  revert cur k. induction s as [|c s IH]; intros cur k; cbn [split_go]; [done |].
  destruct k; [| apply IH]. destruct (startswith (c :: s) sep); [done | apply IH].
Qed.

Lemma join_cons (sep p : str) (rest : list str) :
  rest ≠ [] → PyStr.join sep (p :: rest) = p ++ sep ++ PyStr.join sep rest.
Proof. by destruct rest. Qed.

Lemma join_snoc (sep p : str) (front : list str) :
  front ≠ [] →
  PyStr.join sep (front ++ [p]) = PyStr.join sep front ++ sep ++ p.
Proof.
  induction front as [|q front IH]; [done |]. intros _.
  destruct front as [|q' front]; [done |].
  cbn [app]. rewrite (join_cons sep q (q' :: front ++ [p])) by done.
  change (q' :: front ++ [p]) with ((q' :: front) ++ [p]).
  rewrite IH by done. rewrite (join_cons sep q (q' :: front)) by done.
  by rewrite <- !app_assoc.
Qed.

(** Skipping the rest of a matched separator. *)
Lemma split_go_skip (sep pre t cur : str) :
  split_go sep (pre ++ t) cur (length pre) = split_go sep t cur 0.
Proof. induction pre as [|a pre IH]; [by destruct t | apply IH]. Qed.

Lemma split_go_join (sep : str) (n : nat) (s cur : str) :
  sep ≠ [] → (length s ≤ n)%nat →
  PyStr.join sep (split_go sep s cur 0) = rev cur ++ s.
Proof.
  intros Hsep. revert s cur. induction n as [|n IH]; intros s cur Hn.
  - destruct s; [| simpl in Hn; lia]. cbn. by rewrite app_nil_r.
  - destruct s as [|c s]; [cbn; by rewrite app_nil_r |].
    cbn [split_go]. destruct (startswith (c :: s) sep) eqn:E.
    + apply startswith_inv in E as [t Ht].
      destruct sep as [|a sep']; [done |]. cbn [app] in Ht. simplify_eq.
      cbn [length pred]. rewrite split_go_skip.
      rewrite join_cons by apply split_go_nonempty.
      rewrite IH; [done |]. simpl in Hn. rewrite length_app in Hn. lia.
    + rewrite IH by (simpl in Hn; lia). cbn [rev]. by rewrite <- app_assoc.
Qed.

(** X3.  Joining the parts of a split with the separator gives the string
    back: ["/".join(p.split("/")) == p], for every non-empty separator. *)
Theorem split_join (s sep : str) (parts : list str) :
  split s sep = Ok parts → PyStr.join sep parts = s.
Proof.
  unfold split, split_by. destruct sep as [|a sep']; [done |].
  intros ?; simplify_eq. by rewrite (split_go_join _ (length s)).
Qed.

Lemma split_join_witness :
  split (lit "a//b/./c/") PosixPath.sep
  = Ok [lit "a"; []; lit "b"; lit "."; lit "c"; []]
  ∧ PyStr.join PosixPath.sep [lit "a"; []; lit "b"; lit "."; lit "c"; []]
    = lit "a//b/./c/".
Proof.
  split; [reflexivity |].
  apply (split_join (lit "a//b/./c/") PosixPath.sep). reflexivity.
Defined.

(** Up to its first separator a path is one part. *)
Lemma split_go_prefix (B Q cur : str) :
  47 ∉ B →
  split_go PosixPath.sep (B ++ PosixPath.sep ++ Q) cur 0
  = (rev cur ++ B) :: split_go PosixPath.sep Q [] 0.
Proof.
  change PosixPath.sep with [47].
  revert cur. induction B as [|c B IH]; intros cur HB.
  - cbn [app split_go startswith]. rewrite N.eqb_refl, startswith_nil.
    cbn. by rewrite app_nil_r.
  - apply not_elem_of_cons in HB as [Hc HB].
    cbn [app split_go startswith].
    destruct (47 =? c) eqn:E; [by apply N.eqb_eq in E |]. cbn [andb].
    rewrite (IH _ HB). cbn [rev]. by rewrite <- app_assoc.
Qed.

(** Without [..] among the components the stack of [normpath] only
    grows: it takes every component that is neither empty nor [.]. *)
Lemma normpath_fold_descending (n : nat) (comps acc : list str) :
  PosixPath.dotdot ∉ comps →
  fold_left (PosixPath.normpath_step n) comps acc
  = acc ++ filter (λ c, c ≠ [] ∧ c ≠ PosixPath.dot) comps.
Proof.
  revert acc. induction comps as [|c comps IH]; intros acc Hd.
  - cbn. by rewrite app_nil_r.
  - apply not_elem_of_cons in Hd as [Hc Hd]. cbn [fold_left].
    rewrite (IH _ Hd). unfold PosixPath.normpath_step, PosixPath.str_eqb.
    rewrite filter_cons.
    destruct (decide (c ≠ [] ∧ c ≠ PosixPath.dot)) as [[H1 H2]|Hn].
    + rewrite !bool_decide_eq_false_2 by done. cbn [orb negb].
      by rewrite <- app_assoc.
    + destruct (decide (c = [])) as [->|H1]; [done |].
      destruct (decide (c = PosixPath.dot)) as [->|H2]; [done |].
      by destruct Hn.
Qed.

Lemma endswith_no_sep (B : str) : 47 ∉ B → endswith B PosixPath.sep = false.
Proof.
  intros HB. destruct (endswith B PosixPath.sep) eqn:E; [| done].
  apply endswith_inv in E as [x ->]. exfalso. apply HB.
  change PosixPath.sep with [47]. set_solver.
Qed.

(** A plain base followed by a descending path is rooted under the
    base. *)
Lemma rooted_prefixed (B Q : str) :
  plain_segment B → PosixPath.dotdot ∉ split_by PosixPath.sep Q →
  rooted B (B ++ PosixPath.sep ++ Q).
Proof.
  intros (Hne & Hdot & Hdd & Hsep) HQ. unfold rooted, PosixPath.normpath.
  assert (B ++ PosixPath.sep ++ Q ≠ []) as Hpath by (by destruct B).
  assert (startswith (B ++ PosixPath.sep ++ Q) PosixPath.sep = false) as Hs.
  { destruct B as [|b B']; [done |].
    change PosixPath.sep with [47]. cbn [app startswith].
    apply not_elem_of_cons in Hsep as [Hb _].
    destruct (47 =? b) eqn:E; [by apply N.eqb_eq in E | done]. }
  unfold PosixPath.str_eqb at 1.
  rewrite bool_decide_eq_false_2 by done.
  rewrite Hs. unfold split_by. rewrite split_go_prefix by done.
  cbn [rev app fold_left replicate concat].
  assert (PosixPath.normpath_step 0 [] B = [B]) as ->.
  { unfold PosixPath.normpath_step, PosixPath.str_eqb.
    by rewrite !bool_decide_eq_false_2 by done. }
  rewrite normpath_fold_descending by done.
  set (F := filter _ _). cbn [app].
  unfold PosixPath.str_eqb.
  destruct F as [|f F].
  - cbn [PyStr.join]. rewrite bool_decide_eq_false_2 by done.
    by apply first_segment_id.
  - rewrite join_cons by done.
    rewrite bool_decide_eq_false_2 by (by destruct B).
    by apply first_segment_app.
Qed.

(** X4.  A path that already starts with the base as its first component
    comes back unchanged, however often the base name occurs deeper in
    it, as long as the base is a plain name and the rest of the path
    never steps to a parent directory. *)
Theorem prepend_base_path_prefixed (B Q : str) :
  plain_segment B →
  PosixPath.dotdot ∉ split_by PosixPath.sep Q →
  prepend_base_path B (B ++ PosixPath.sep ++ Q)
  = Ok (B ++ PosixPath.sep ++ Q).
Proof.
  intros HB HQ. rewrite prepend_base_path_unfold.
  rewrite bool_decide_eq_true_2; [done | by apply rooted_prefixed].
Qed.

Lemma prepend_base_path_prefixed_witness :
  plain_segment (lit "files")
  ∧ (PosixPath.dotdot ∉ split_by PosixPath.sep (lit "bar/./files//a.txt"))
  ∧ prepend_base_path (lit "files")
      (lit "files" ++ PosixPath.sep ++ lit "bar/./files//a.txt")
    = Ok (lit "files" ++ PosixPath.sep ++ lit "bar/./files//a.txt").
Proof.
  assert (plain_segment (lit "files")) as H1.
  { repeat split; apply (bool_decide_unpack _); vm_compute; exact I. }
  assert (PosixPath.dotdot ∉ split_by PosixPath.sep (lit "bar/./files//a.txt"))
    as H2 by (apply (bool_decide_unpack _); vm_compute; exact I).
  split; [exact H1 |]. split; [exact H2 |].
  exact (prepend_base_path_prefixed (lit "files") (lit "bar/./files//a.txt")
           H1 H2).
Defined.

(** X5.  For a plain base and a relative path that never steps to a
    parent directory the function settles after one application: the
    result is the path itself or [base/path], it is rooted under the
    base, and a second application returns it unchanged. *)
Theorem prepend_base_path_settles (B P : str) :
  plain_segment B → descending P →
  ∃ r, prepend_base_path B P = Ok r
       ∧ (r = P ∨ r = B ++ PosixPath.sep ++ P)
       ∧ rooted B r
       ∧ prepend_base_path B r = Ok r.
Proof.
  intros HB [Hrel Hdd]. rewrite prepend_base_path_unfold.
  case_bool_decide as HR.
  - exists P. repeat split; [by left | done |].
    by rewrite prepend_base_path_unfold, bool_decide_eq_true_2.
  - assert (PosixPath.join B P = B ++ PosixPath.sep ++ P) as ->.
    { destruct HB as (Hne & _ & _ & Hsep).
      unfold PosixPath.join, PosixPath.str_eqb.
      by rewrite Hrel, bool_decide_eq_false_2, endswith_no_sep. }
    pose proof (rooted_prefixed B P HB Hdd) as HR'.
    eexists. repeat split; [by right | done |].
    by rewrite prepend_base_path_unfold, bool_decide_eq_true_2.
Qed.

Lemma prepend_base_path_settles_witness :
  plain_segment (lit "files") ∧ descending (lit "foo/my-file.txt")
  ∧ ∃ r, prepend_base_path (lit "files") (lit "foo/my-file.txt") = Ok r
         ∧ (r = lit "foo/my-file.txt"
            ∨ r = lit "files" ++ PosixPath.sep ++ lit "foo/my-file.txt")
         ∧ rooted (lit "files") r
         ∧ prepend_base_path (lit "files") r = Ok r.
Proof.
  assert (plain_segment (lit "files")) as H1.
  { repeat split; apply (bool_decide_unpack _); vm_compute; exact I. }
  assert (descending (lit "foo/my-file.txt")) as H2.
  { split; [reflexivity |]. apply (bool_decide_unpack _); vm_compute; exact I. }
  split; [exact H1 |]. split; [exact H2 |].
  exact (prepend_base_path_settles (lit "files") (lit "foo/my-file.txt") H1 H2).
Defined.

(** A step to the parent directory defeats both: the result leaves the
    base, and every further application prepends the base again. *)
Lemma prepend_base_path_parent_step :
  prepend_base_path (lit "files") (lit "../x") = Ok (lit "files/../x")
  ∧ PosixPath.normpath (lit "files/../x") = lit "x"
  ∧ prepend_base_path (lit "files") (lit "files/../x")
    = Ok (lit "files/files/../x").
Proof. repeat split; reflexivity. Qed.

(** ** More on the base name *)

Lemma rsplit_by_nonempty (sep s : str) (n : nat) : rsplit_by sep s n ≠ [].
Proof.
  destruct n; cbn [rsplit_by]; [done |].
  destruct (rfind s sep); [| done]. intros [_ ?]%app_eq_nil. done.
Qed.

Lemma rsplit_by_join (sep s : str) (n : nat) :
  PyStr.join sep (rsplit_by sep s n) = s.
Proof.
  revert s. induction n as [|n IH]; intros s; [done |].
  cbn [rsplit_by]. destruct (rfind s sep) as [i|] eqn:E; [| done].
  rewrite join_snoc by apply rsplit_by_nonempty. rewrite IH.
  apply rfind_from_sound in E as (pre & post & -> & ->). cbn [Nat.add].
  rewrite take_app_length.
  rewrite (app_assoc pre sep post), <- length_app, drop_app_length.
  by rewrite <- app_assoc.
Qed.

Lemma rsplit_by_length (sep s : str) (n : nat) :
  (length (rsplit_by sep s n) ≤ S n)%nat.
Proof.
  revert s. induction n as [|n IH]; intros s; [done |].
  cbn [rsplit_by]. destruct (rfind s sep); [| simpl; lia].
  rewrite length_app. specialize (IH (take n0 s)). simpl. lia.
Qed.

(** X6.  [rsplit] only cuts: joining its parts with the separator gives
    the string back, and with [maxsplit] cuts allowed there are at most
    [maxsplit + 1] parts. *)
Theorem rsplit_join (s sep : str) (maxsplit : nat) (parts : list str) :
  rsplit s sep maxsplit = Ok parts →
  PyStr.join sep parts = s ∧ (length parts ≤ S maxsplit)%nat.
Proof.
  unfold rsplit. destruct sep as [|a sep']; [done |].
  intros ?; simplify_eq. split; [apply rsplit_by_join | apply rsplit_by_length].
Qed.

Lemma rsplit_join_witness :
  rsplit (lit "a.pdf.b.pdf.c") (lit ".pdf") 1
  = Ok [lit "a.pdf.b"; lit ".c"]
  ∧ PyStr.join (lit ".pdf") [lit "a.pdf.b"; lit ".c"] = lit "a.pdf.b.pdf.c"
  ∧ (length [lit "a.pdf.b"; lit ".c"] ≤ 2)%nat.
Proof.
  split; [reflexivity |].
  apply (rsplit_join (lit "a.pdf.b.pdf.c") (lit ".pdf") 1). reflexivity.
Defined.

(** The base name and what was cut off after it. *)
Lemma base_name_of_cut (name base : str) :
  base_name_of name = Ok base →
  (name = base ∧ ∀ j, ¬ occurs_at (lit ".pdf") name j)
  ∨ ∃ tail, name = base ++ lit ".pdf" ++ tail
            ∧ ∀ j, ¬ occurs_at (lit ".pdf") tail j.
Proof.
  rewrite base_name_of_unfold. intros ?; simplify_eq.
  pose proof (rfind_last_occurrence name (lit ".pdf")) as H.
  destruct (rfind name (lit ".pdf")) as [i|]; [| by left].
  destruct H as [(pre & post & -> & <-) Hlast]. right.
  rewrite take_app_length. exists post. split; [done |].
  intros j (a & b & -> & <-).
  specialize (Hlast (length (pre ++ lit ".pdf" ++ a))).
  rewrite !length_app in Hlast. simpl in Hlast.
  assert (length pre + (4 + length a) ≤ length pre)%nat; [| lia].
  apply Hlast. exists (pre ++ lit ".pdf" ++ a), b.
  split; [by rewrite <- !app_assoc | by rewrite !length_app].
Qed.

(** X7.  The base name is the file name up to its last [.pdf]: either
    [.pdf] does not occur and the base name is the whole name, or the
    name is the base name, then [.pdf], then a tail in which [.pdf] does
    not occur.  In particular the base name is a prefix of the name. *)
Theorem base_name_of_last_pdf (name : str) :
  ∃ base, base_name_of name = Ok base
    ∧ ((name = base ∧ ∀ j, ¬ occurs_at (lit ".pdf") name j)
       ∨ ∃ tail, name = base ++ lit ".pdf" ++ tail
                 ∧ ∀ j, ¬ occurs_at (lit ".pdf") tail j).
Proof.
  destruct (base_name_of_total name) as [base Hb].
  exists base. split; [done | by apply base_name_of_cut].
Qed.

(** ** Page names *)

Lemma lit_inj (x y : string) : lit x = lit y → x = y.
Proof.
  unfold lit. intros H.
  rewrite <- (string_of_list_ascii_of_string x),
    <- (string_of_list_ascii_of_string y). f_equal.
  revert H. generalize (list_ascii_of_string x) (list_ascii_of_string y).
  induction l as [|a l IH]; intros [|b l'] H; simplify_eq/=; [done |].
  f_equal; [| by apply IH].
  rewrite <- (ascii_N_embedding a), <- (ascii_N_embedding b). congruence.
Qed.

Lemma to_uint_nonnil (n : nat) : Nat.to_uint n ≠ Decimal.Nil.
Proof.
  intros H. pose proof (Unsigned.of_to n) as Hn. rewrite H in Hn.
  cbn in Hn. by subst n.
Qed.

(** Different numbers are written differently. *)
Lemma of_nat_inj (i j : nat) : of_nat i = of_nat j → i = j.
Proof.
  unfold of_nat. intros H%lit_inj. apply Unsigned.to_uint_inj.
  pose proof (NilZero.usu _ (to_uint_nonnil i)) as Hi.
  pose proof (NilZero.usu _ (to_uint_nonnil j)) as Hj.
  rewrite H in Hi. congruence.
Qed.

#[global] Instance page_file_name_inj (base_name : str) :
  Inj (=) (=) (page_file_name base_name).
Proof.
  intros i j H. unfold page_file_name in H.
  apply app_inv_head, app_inv_head, app_inv_tail in H. by apply of_nat_inj.
Qed.

(** No page is named like the input. *)
Lemma page_file_name_not_input (name base_name : str) (i : nat) :
  base_name_of name = Ok base_name → page_file_name base_name i ≠ name.
Proof.
  intros [[-> _] | (tail & -> & _)]%base_name_of_cut; unfold page_file_name;
    intros H.
  - rewrite <- (app_nil_r base_name) in H at 2. by apply app_inv_head in H.
  - by apply app_inv_head in H.
Qed.

(** ** What a run never takes away *)

Lemma grows_refl (w : world) : grows w w.
Proof. by repeat split. Qed.

Lemma grows_trans (w1 w2 w3 : world) : grows w1 w2 → grows w2 w3 → grows w1 w3.
Proof.
  intros (He & Hf & Hd & Hc & Hw & Hl & Hdir) (He' & Hf' & Hd' & Hc' & Hw' & Hl' & Hdir').
  repeat split; try congruence; by etrans.
Qed.

Lemma growing_ret {A} (a : A) : growing (mret a).
Proof. intros w. apply grows_refl. Qed.

Lemma growing_raise {A} (e : exn) : growing (@raise A e).
Proof. intros w. apply grows_refl. Qed.

Lemma growing_lift {A} (r : result A) : growing (lift r).
Proof. intros w. apply grows_refl. Qed.

Lemma growing_getenv (name : str) : growing (getenv name).
Proof. intros w. apply grows_refl. Qed.

(** Growing computations compose. *)
Lemma growing_bind {A B} (m : M A) (k : A → M B) :
  growing m → (∀ a, growing (k a)) → growing (m ≫= k).
Proof.
  intros Hm Hk w. specialize (Hm w). autounfold with run.
  destruct (m w) as [[a|e] w1]; [| done].
  eapply grows_trans; [exact Hm | apply Hk].
Qed.

Lemma growing_makedirs (path : str) : growing (makedirs path).
Proof.
  intros w. unfold makedirs.
  repeat case_bool_decide; try apply grows_refl.
  repeat split; cbn; try done. set_solver.
Qed.

Lemma growing_open_wb (path : str) (data : bytes) : growing (open_wb path data).
Proof.
  intros w. unfold open_wb.
  case_bool_decide; [apply grows_refl |].
  destruct (_ || _); [apply grows_refl |].
  case_bool_decide; [apply grows_refl |].
  repeat split; cbn; try done. rewrite dom_insert_L. set_solver.
Qed.

Lemma growing_read_local (path : str) : growing (read_local path).
Proof.
  intros w. unfold read_local. destruct (fs_files w !! path); apply grows_refl.
Qed.

Lemma growing_read_file (path : str) : growing (read_file_in_workspace path).
Proof.
  intros w. unfold read_file_in_workspace.
  assert (grows w (called (WsRead path) (ws_files w) w)) as H.
  { repeat split; cbn; try done. by apply prefix_app_r. }
  destruct (ws_fails w _); [done |]. by destruct (ws_files w !! path).
Qed.

Lemma growing_write_file (path : str) (data : bytes) :
  growing (write_file_in_workspace path data).
Proof.
  intros w. unfold write_file_in_workspace.
  destruct (ws_fails w _); repeat split; cbn; try done;
    try (by apply prefix_app_r).
  rewrite dom_insert_L. set_solver.
Qed.

Lemma growing_create_scratch_dir : growing create_scratch_dir.
Proof.
  unfold create_scratch_dir. apply growing_bind; [apply growing_getenv |].
  intros [dir|]; [| apply growing_raise].
  apply growing_bind; [apply growing_makedirs | intros; apply growing_ret].
Qed.

Lemma growing_copy_pdf (scratch_dir filepath : str) :
  growing (copy_pdf_from_gptscript_workspace scratch_dir filepath).
Proof.
  unfold copy_pdf_from_gptscript_workspace.
  apply growing_bind; [apply growing_lift | intros path].
  apply growing_bind; [apply growing_read_file | intros data].
  apply growing_bind; [apply growing_open_wb | intros; apply growing_ret].
Qed.

Lemma growing_save (filepath : str) (c : content) :
  growing (save_to_gptscript_workspace filepath c).
Proof.
  unfold save_to_gptscript_workspace.
  apply growing_bind; [apply growing_lift | intros path].
  apply growing_bind; [| intros; apply growing_write_file].
  destruct c; [apply growing_ret | apply growing_lift].
Qed.

(** ** Where the steps before the conversion fail *)

Lemma create_scratch_dir_raise (w w' : world) (e : exn) :
  create_scratch_dir w = (Raise e, w') →
  w' = w ∧ e ≠ WorkspaceError ∧ e ≠ FileDataError.
Proof.
  unfold create_scratch_dir. autounfold with run.
  destruct (environ w !! _); [| by intros; simplify_eq].
  unfold makedirs. repeat case_bool_decide; by intros; simplify_eq.
Qed.

Lemma create_scratch_dir_ok (w w' : world) (path : str) :
  create_scratch_dir w = (Ok path, w') →
  ∃ dir, environ w !! lit "GPTSCRIPT_WORKSPACE_DIR" = Some dir
         ∧ path = PosixPath.join dir (lit "scratch")
         ∧ path ∈ fs_dirs w'
         ∧ fs_files w' = fs_files w
         ∧ path ∉ dom (fs_files w).
Proof.
  unfold create_scratch_dir. autounfold with run.
  destruct (environ w !! _) as [dir|]; [| done].
  unfold makedirs. repeat case_bool_decide; intros; simplify_eq;
    exists dir; repeat split; try done. cbn. set_solver.
Qed.

Lemma open_wb_raise (path : str) (data : bytes) (w w' : world) (e : exn) :
  open_wb path data w = (Raise e, w') →
  w' = w ∧ e ≠ WorkspaceError ∧ e ≠ FileDataError.
Proof.
  unfold open_wb. case_bool_decide; [by intros; simplify_eq |].
  destruct (_ || _); [by intros; simplify_eq |].
  case_bool_decide; by intros; simplify_eq.
Qed.

(** A copy fails either at the store, before anything is on the local
    disk, or at the local disk, after the read went through. *)
Lemma copy_pdf_raise_cases (scratch_dir filepath : str) (w w' : world)
    (e : exn) :
  copy_pdf_from_gptscript_workspace scratch_dir filepath w = (Raise e, w') →
  w' = called (WsRead (workspace_path filepath)) (ws_files w) w
  ∧ ((e = WorkspaceError
      ∧ (ws_fails w (length (ws_calls w)) = true
         ∨ ws_files w !! workspace_path filepath = None))
     ∨ (e ≠ WorkspaceError ∧ e ≠ FileDataError)).
Proof.
  unfold copy_pdf_from_gptscript_workspace. rewrite prepend_files.
  autounfold with run. unfold read_file_in_workspace.
  destruct (ws_fails w _) eqn:Ef.
  { intros ?; simplify_eq. split; [done |]. left. split; [done | by left]. }
  destruct (ws_files w !! _) as [data|] eqn:Hd.
  2:{ intros ?; simplify_eq. split; [done |]. left. split; [done | by right]. }
  destruct (open_wb _ data _) as [[[]|e'] w1] eqn:Ho; [done |].
  intros ?; simplify_eq. apply open_wb_raise in Ho as (-> & H1 & H2).
  split; [done | by right].
Qed.

Section Runs.

Context {page image : Type}.
Variable parse_pdf : bytes → option (list page).
Variable get_pixmap : page → Matrix → Pixmap.
Variable frombytes : str → N * N → bytes → image.
Variable save_png : image → bytes.

Abbreviation render := (Tool.render get_pixmap frombytes).
Abbreviation convert_pdf_to_images :=
  (Tool.convert_pdf_to_images parse_pdf get_pixmap frombytes).
Abbreviation save_loop := (Tool.save_loop save_png).
Abbreviation main := (Tool.main parse_pdf get_pixmap frombytes save_png).

Lemma growing_convert (pdf_path : str) (dpi : Z) :
  growing (convert_pdf_to_images pdf_path dpi).
Proof.
  unfold Tool.convert_pdf_to_images, Tool.fitz_open.
  apply growing_bind; [| intros; apply growing_lift].
  apply growing_bind; [apply growing_read_local | intros data].
  destruct (parse_pdf data); [apply growing_ret | apply growing_raise].
Qed.

Lemma growing_save_loop (base_name : str) (images : list image) (i : nat)
    (acc : list str) :
  growing (save_loop base_name i images acc).
Proof.
  revert i acc. induction images as [|img images IH]; intros i acc.
  - apply growing_ret.
  - cbn [Tool.save_loop]. apply growing_bind; [apply growing_save |].
    intros _. apply IH.
Qed.

(** X8.  A run never takes anything away, whether it succeeds or fails:
    the environment is as before, the log of store calls was only
    extended, and every workspace file, local file and local directory
    that existed before still exists. *)
Theorem main_grows (w : world) :
  environ (main w).2 = environ w
  ∧ ws_calls w `prefix_of` ws_calls (main w).2
  ∧ dom (ws_files w) ⊆ dom (ws_files (main w).2)
  ∧ dom (fs_files w) ⊆ dom (fs_files (main w).2)
  ∧ fs_dirs w ⊆ fs_dirs (main w).2.
Proof.
  assert (growing main) as H.
  { unfold Tool.main.
    apply growing_bind; [apply growing_create_scratch_dir | intros scratch_dir].
    apply growing_bind; [apply growing_getenv | intros [name|]];
      [| apply growing_raise].
    apply growing_bind; [apply growing_lift | intros base_name].
    apply growing_bind; [apply growing_copy_pdf | intros local].
    apply growing_bind; [apply growing_convert | intros images].
    apply growing_bind; [apply growing_save_loop | intros; apply growing_ret]. }
  destruct (H w) as (He & _ & _ & Hc & Hw & Hl & Hd). by repeat split.
Qed.

(** ** Pages that were written stay written *)

Lemma store_after_cons (c : ws_call) (calls : list ws_call)
    (files : gmap str bytes) :
  store_after (c :: calls) files
  = store_after calls (match c with
                       | WsWrite path data => <[path := data]> files
                       | WsRead _ => files
                       end).
Proof. done. Qed.

(** The saving loop, whatever its outcome.  It completes exactly when the
    store accepts one call per image; otherwise it stops at the first
    call that is refused, with the pages before it written. *)
Lemma save_loop_outcome (base_name : str) (images : list image) (i : nat)
    (acc : list str) (w : world) :
  match save_loop base_name i images acc w with
  | (Ok generated, w') =>
      (∀ j, (j < length images)%nat →
            ws_fails w (length (ws_calls w) + j)%nat = false)
      ∧ ws_calls w' = ws_calls w ++ page_writes save_png base_name i images
      ∧ ws_files w'
        = store_after (page_writes save_png base_name i images) (ws_files w)
  | (Raise e, w') =>
      e = WorkspaceError
      ∧ ∃ k, (k < length images)%nat
          ∧ ws_fails w (length (ws_calls w) + k)%nat = true
          ∧ (∀ j, (j < k)%nat →
                  ws_fails w (length (ws_calls w) + j)%nat = false)
          ∧ ws_calls w'
            = ws_calls w
              ++ page_writes save_png base_name i (take (S k) images)
          ∧ ws_files w'
            = store_after (page_writes save_png base_name i (take k images))
                (ws_files w)
  end.
Proof.
  revert i acc w. induction images as [|img images IH]; intros i acc w.
  - cbn. split; [intros; lia |]. by rewrite app_nil_r.
  - cbn [Tool.save_loop]. autounfold with run.
    rewrite save_step. unfold write_file_in_workspace.
    destruct (ws_fails w (length (ws_calls w))) eqn:Ef.
    + split; [done |]. exists 0%nat. cbn [length].
      rewrite Nat.add_0_r. repeat split; [lia | done | intros; lia |].
      cbn [take]. by rewrite page_writes_cons.
    + set (w1 := called _ _ w). specialize (IH (S i) (acc ++ [page_file_name base_name i]) w1).
      assert (length (ws_calls w1) = S (length (ws_calls w))) as Hlen.
      { subst w1. cbn. rewrite length_app. simpl. lia. }
      destruct (Tool.save_loop save_png base_name (S i) images _ w1)
        as [[generated|e] w'].
      * destruct IH as (Hok & Hc & Hf). repeat split.
        -- intros [|j] Hj; [by rewrite Nat.add_0_r |].
           specialize (Hok j). rewrite Hlen in Hok. cbn in Hj.
           replace (length (ws_calls w) + S j)%nat
             with (S (length (ws_calls w)) + j)%nat by lia.
           apply Hok. lia.
        -- rewrite Hc, page_writes_cons. subst w1. cbn.
           by rewrite <- app_assoc.
        -- by rewrite Hf, page_writes_cons, store_after_cons.
      * destruct IH as (-> & k & Hk & Hfail & Hbefore & Hc & Hf).
        split; [done |]. exists (S k). rewrite Hlen in Hfail, Hbefore.
        repeat split.
        -- cbn. lia.
        -- replace (length (ws_calls w) + S k)%nat
             with (S (length (ws_calls w)) + k)%nat by lia. done.
        -- intros [|j] Hj; [by rewrite Nat.add_0_r |].
           replace (length (ws_calls w) + S j)%nat
             with (S (length (ws_calls w)) + j)%nat by lia.
           apply Hbefore. lia.
        -- rewrite Hc. cbn [take]. rewrite page_writes_cons. subst w1. cbn.
           by rewrite <- app_assoc.
        -- rewrite Hf. cbn [take].
           by rewrite page_writes_cons, store_after_cons.
Qed.

(** ** How a run fails *)

Lemma convert_pdf_to_images_raise (pdf_path : str) (dpi : Z) (w w' : world)
    (e : exn) :
  convert_pdf_to_images pdf_path dpi w = (Raise e, w') →
  w' = w
  ∧ ((e = FileNotFoundError ∧ fs_files w !! pdf_path = None)
     ∨ (e = FileDataError
        ∧ ∃ data, fs_files w !! pdf_path = Some data ∧ parse_pdf data = None)).
Proof.
  destruct (fs_files w !! pdf_path) as [data|] eqn:Hfile.
  - destruct (parse_pdf data) as [doc|] eqn:Hparse.
    + by rewrite (convert_pdf_to_images_ok _ _ _ _ _ _ _ _ Hfile Hparse).
    + unfold Tool.convert_pdf_to_images, Tool.fitz_open, read_local.
      autounfold with run. rewrite Hfile, Hparse. intros ?; simplify_eq.
      split; [done |]. right. split; [done |]. by exists data.
  - unfold Tool.convert_pdf_to_images, Tool.fitz_open, read_local.
    autounfold with run. rewrite Hfile. intros ?; simplify_eq.
    split; [done |]. by left.
Qed.

(** The places at which a run can fail, in the order of the program. *)
Lemma main_raise_cases (w w' : world) (e : exn) :
  main w = (Raise e, w') →
  create_scratch_dir w = (Raise e, w')
  ∨ (∃ d, create_scratch_dir w = (Ok d, w')
          ∧ environ w !! lit "PDF_FILE" = None ∧ e = AttributeError)
  ∨ ∃ d w1 name,
      create_scratch_dir w = (Ok d, w1)
      ∧ environ w !! lit "PDF_FILE" = Some name
      ∧ (copy_pdf_from_gptscript_workspace d name w1 = (Raise e, w')
         ∨ ∃ local w2,
             copy_pdf_from_gptscript_workspace d name w1 = (Ok local, w2)
             ∧ (convert_pdf_to_images local default_dpi w2 = (Raise e, w')
                ∨ ∃ base_name data doc,
                    base_name_of name = Ok base_name
                    ∧ fs_files w2 !! local = Some data
                    ∧ parse_pdf data = Some doc
                    ∧ save_loop base_name 0 (render default_dpi <$> doc) [] w2
                      = (Raise e, w'))).
Proof.
  rewrite (main_unfold parse_pdf get_pixmap frombytes save_png).
  destruct (create_scratch_dir w) as [[d|e0] w1] eqn:Hc;
    [| intros; simplify_eq; by left].
  pose proof (create_scratch_dir_frame _ _ _ Hc) as (He1 & _).
  rewrite He1.
  destruct (environ w !! lit "PDF_FILE") as [name|] eqn:Hn.
  2:{ intros ?; simplify_eq. right; left. by exists d. }
  destruct (base_name_of_total name) as [base_name Hb]. rewrite Hb.
  intros H. right; right. exists d, w1, name. repeat split; try done.
  destruct (copy_pdf_from_gptscript_workspace d name w1)
    as [[local|e1] w2] eqn:Hcp; [| simplify_eq; by left].
  right. exists local, w2. split; [done |].
  destruct (Tool.convert_pdf_to_images _ _ _ _ _ _)
    as [[images|e2] w3] eqn:Hcv; [| simplify_eq; by left].
  apply convert_pdf_to_images_inv in Hcv as (-> & data & doc & Hl & Hp & ->).
  right. exists base_name, data, doc. repeat split; try done.
  by destruct (Tool.save_loop _ _ _ _ _ _) as [[g|e3] w4]; simplify_eq.
Qed.

Lemma take_S_page_writes (base_name : str) (images : list image) (k i : nat) :
  (k < length images)%nat →
  ∃ c rest, page_writes save_png base_name i (take (S k) images)
            = c :: rest ∧ is_write c = true.
Proof.
  destruct images as [|img images]; [simpl; lia |]. intros _.
  cbn [take]. rewrite page_writes_cons. by eexists _, _.
Qed.

Lemma ws_writes_grow (w w' : world) (c : ws_call) (mid : list ws_call) :
  is_write c = true → c ∈ mid → ws_calls w' = ws_calls w ++ mid →
  ws_writes w' ≠ ws_writes w.
Proof.
  intros Hc Hin Hcalls. unfold ws_writes. rewrite Hcalls, filter_app.
  intros H%(f_equal length). rewrite length_app in H.
  assert (c ∈ filter (λ c, is_write c = true) mid) as Hf
    by by apply list_elem_of_filter.
  destruct (filter _ mid); [by apply not_elem_of_nil in Hf |].
  simpl in H. lia.
Qed.

(** X9.  A run that fails after it has started to write has failed on a
    write that the store refused.  Nothing is rolled back: the pages
    before the refused one are in the workspace, the refused one and the
    ones after it are not written, and no result is returned. *)
Theorem main_keeps_written_pages (w w' : world) (e : exn) :
  main w = (Raise e, w') →
  ws_writes w' ≠ ws_writes w →
  e = WorkspaceError
  ∧ ∃ name base_name data doc k,
      environ w !! lit "PDF_FILE" = Some name
      ∧ base_name_of name = Ok base_name
      ∧ ws_files w !! workspace_path name = Some data
      ∧ parse_pdf data = Some doc
      ∧ (k < length doc)%nat
      ∧ ws_calls w'
        = ws_calls w ++ WsRead (workspace_path name)
            :: page_writes save_png base_name 0
                 (take (S k) (render default_dpi <$> doc))
      ∧ ws_files w'
        = store_after
            (page_writes save_png base_name 0
               (take k (render default_dpi <$> doc)))
            (ws_files w).
Proof.
  intros Hm Hw. apply main_raise_cases in Hm
    as [Hc | [(d & Hc & _) | (d & w1 & name & Hc & Hn & Hrest)]].
  - apply create_scratch_dir_raise in Hc as [-> _]. done.
  - apply create_scratch_dir_frame in Hc. by apply ws_writes_same in Hc.
  - pose proof (create_scratch_dir_frame _ _ _ Hc) as Hs1.
    pose proof (ws_writes_same _ _ Hs1) as Hw1.
    destruct Hs1 as (_ & Hf1 & _ & Hc1).
    destruct Hrest as [Hcp | (local & w2 & Hcp & Hrest)].
    { apply copy_pdf_raise in Hcp as (Hw2 & _). congruence. }
    apply copy_pdf_ok in Hcp
      as (data0 & Hd0 & -> & Hl0 & _ & Hf2 & Hfl2 & Hc2).
    destruct Hrest as [Hcv | (base_name & data & doc & Hb & Hl & Hp & Hs)].
    { apply convert_pdf_to_images_raise in Hcv as [-> _].
      exfalso. apply Hw. unfold ws_writes. rewrite Hc2, filter_app. cbn.
      rewrite decide_False by done. rewrite app_nil_r. exact Hw1. }
    pose proof (save_loop_outcome base_name (render default_dpi <$> doc)
                  0 [] w2) as Ho.
    rewrite Hs in Ho. destruct Ho as (-> & k & Hk & _ & _ & Hc' & Hf').
    split; [done |]. simplify_eq.
    exists name, base_name, data0, doc, k. rewrite length_fmap in Hk.
    repeat split; try done.
    + by rewrite <- Hf1.
    + by rewrite Hc', Hc2, Hc1, <- app_assoc.
    + by rewrite Hf', Hf2, Hf1.
Qed.

(** X10.  A run ends in [FileDataError] only when the file it fetched is
    not a PDF.  The fetched copy is then still in the scratch directory,
    under the last component of the input name; the store was read once
    and never written. *)
Theorem main_not_a_pdf (w w' : world) :
  main w = (Raise FileDataError, w') →
  ∃ dir name data,
    environ w !! lit "GPTSCRIPT_WORKSPACE_DIR" = Some dir
    ∧ environ w !! lit "PDF_FILE" = Some name
    ∧ ws_files w !! workspace_path name = Some data
    ∧ parse_pdf data = None
    ∧ fs_files w' !! PosixPath.join (PosixPath.join dir (lit "scratch"))
                                    (PosixPath.basename name) = Some data
    ∧ ws_calls w' = ws_calls w ++ [WsRead (workspace_path name)]
    ∧ ws_files w' = ws_files w.
Proof.
  intros Hm. apply main_raise_cases in Hm
    as [Hc | [(d & Hc & _ & ?) | (d & w1 & name & Hc & Hn & Hrest)]];
    [by apply create_scratch_dir_raise in Hc as (_ & _ & ?) | done |].
  pose proof (create_scratch_dir_frame _ _ _ Hc) as (_ & Hf1 & _ & Hc1).
  apply create_scratch_dir_ok in Hc as (dir & Hdir & -> & _).
  destruct Hrest as [Hcp | (local & w2 & Hcp & Hrest)].
  { apply copy_pdf_raise_cases in Hcp as [_ [[? _] | [_ ?]]]; done. }
  apply copy_pdf_ok in Hcp as (data0 & Hd0 & -> & Hl0 & _ & Hf2 & _ & Hc2).
  destruct Hrest as [Hcv | (base_name & data & doc & _ & _ & _ & Hs)].
  - apply convert_pdf_to_images_raise in Hcv
      as [-> [[? _] | (_ & data & Hl & Hp)]]; [done |].
    simplify_eq. exists dir, name, data0.
    rewrite Hc2, Hc1, Hf2, Hf1. rewrite Hf1 in Hd0. by repeat split.
  - pose proof (save_loop_outcome base_name (render default_dpi <$> doc)
                  0 [] w2) as Ho.
    rewrite Hs in Ho. by destruct Ho as [? _].
Qed.

(** X11.  A run that ends in [WorkspaceError] without having attempted a
    write has failed on reading its input: the store refused the call or
    does not hold the file.  The store was called exactly once, nothing
    was copied to the local disk, and the workspace is as it was. *)
Theorem main_input_unreadable (w w' : world) :
  main w = (Raise WorkspaceError, w') →
  ws_writes w' = ws_writes w →
  ∃ name,
    environ w !! lit "PDF_FILE" = Some name
    ∧ (ws_fails w (length (ws_calls w)) = true
       ∨ ws_files w !! workspace_path name = None)
    ∧ ws_calls w' = ws_calls w ++ [WsRead (workspace_path name)]
    ∧ fs_files w' = fs_files w
    ∧ ws_files w' = ws_files w.
Proof.
  intros Hm Hw. apply main_raise_cases in Hm
    as [Hc | [(d & Hc & _ & ?) | (d & w1 & name & Hc & Hn & Hrest)]];
    [by apply create_scratch_dir_raise in Hc as (_ & ? & _) | done |].
  pose proof (create_scratch_dir_frame _ _ _ Hc) as (_ & Hf1 & Hfl1 & Hc1).
  apply create_scratch_dir_ok in Hc as (dir & _ & _ & _ & Hfs1 & _).
  destruct Hrest as [Hcp | (local & w2 & Hcp & Hrest)].
  { apply copy_pdf_raise_cases in Hcp as [-> [[_ Hwhy] | [? _]]]; [| done].
    exists name. cbn. rewrite Hfl1, Hc1, Hf1 in *. by repeat split. }
  apply copy_pdf_ok in Hcp as (data0 & _ & _ & _ & _ & _ & _ & Hc2).
  destruct Hrest as [Hcv | (base_name & data & doc & _ & _ & _ & Hs)].
  { by apply convert_pdf_to_images_raise in Hcv as [_ [[? _] | [? _]]]. }
  pose proof (save_loop_outcome base_name (render default_dpi <$> doc)
                0 [] w2) as Ho.
  rewrite Hs in Ho. destruct Ho as (_ & k & Hk & _ & _ & Hc' & _).
  destruct (take_S_page_writes base_name _ k 0 Hk) as (c & rest & Hpw & Hcw).
  exfalso. eapply (ws_writes_grow w w' c); [done | | | done].
  2:{ rewrite Hc', Hpw, Hc2, Hc1, <- app_assoc. done. }
  set_solver.
Qed.

(** ** What a successful run returns *)

(** X12.  The names a successful run returns are pairwise different, and
    none of them is the name of the input: no page overwrites another
    page's name or the input's. *)
Theorem main_names_fresh (w w' : world) (r : gmap str (list str)) :
  main w = (Ok r, w') →
  ∃ name names,
    environ w !! lit "PDF_FILE" = Some name
    ∧ r !! lit "images" = Some names
    ∧ NoDup names
    ∧ name ∉ names.
Proof.
  intros H.
  apply (main_trace parse_pdf get_pixmap frombytes save_png) in H
    as (dir & name & base_name & data & doc & _ & Hn & Hb & _ & _ & _ & ->).
  exists name, (page_file_name base_name <$> seq 0 (length doc)).
  split; [done |]. split; [apply lookup_singleton_eq |]. split.
  - apply NoDup_fmap_2; [apply _ | apply NoDup_seq].
  - intros (i & Hi & _)%list_elem_of_fmap.
    by eapply page_file_name_not_input.
Qed.

Lemma page_writes_paths (base_name : str) (images : list image) (i : nat) :
  Forall2 (λ name c, ∃ path data,
             c = WsWrite path data
             ∧ prepend_base_path (lit "files") name = Ok path)
    (page_file_name base_name <$> seq i (length images))
    (page_writes save_png base_name i images).
Proof.
  revert i. induction images as [|img images IH]; intros i.
  - constructor.
  - rewrite page_writes_cons. cbn [length seq fmap list_fmap].
    constructor; [| apply IH].
    eexists _, _. split; [done | apply prepend_files].
Qed.

(** X13.  In a successful run the writes and the returned names match one
    to one, in order: the store was written exactly once per returned
    name, under [prepend_base_path("files", name)], and nowhere else. *)
Theorem main_writes_match_names (w w' : world) (r : gmap str (list str)) :
  main w = (Ok r, w') →
  ∃ names writes,
    r !! lit "images" = Some names
    ∧ ws_writes w' = ws_writes w ++ writes
    ∧ Forall2 (λ name c, ∃ path data,
                 c = WsWrite path data
                 ∧ prepend_base_path (lit "files") name = Ok path)
        names writes.
Proof.
  intros H.
  apply (main_trace parse_pdf get_pixmap frombytes save_png) in H
    as (dir & name & base_name & data & doc & _ & _ & _ & _ & _ & Hc & ->).
  set (images := render default_dpi <$> doc) in *.
  exists (page_file_name base_name <$> seq 0 (length doc)),
    (page_writes save_png base_name 0 images).
  split; [apply lookup_singleton_eq |].
  pose proof (page_writes_paths base_name images 0) as HF.
  assert (length images = length doc) as Hlen
    by (subst images; apply length_fmap).
  rewrite Hlen in HF. split; [| done].
  unfold ws_writes. rewrite Hc, filter_app, filter_cons.
  rewrite decide_False by done. f_equal.
  clear Hc. induction HF as [|? c ? ? (p & d & -> & _) _ IH]; [done |].
  rewrite filter_cons, decide_True by done. by rewrite IH.
Qed.

End Runs.

(** ** The last component of a path *)

Lemma rfind_from_char_absent (c : N) (s : str) (k : nat) :
  c ∉ s → rfind_from s [c] k = None.
Proof.
  revert k. induction s as [|a s IH]; intros k Hc; [done |].
  apply not_elem_of_cons in Hc as [Ha Hc]. cbn [rfind_from startswith].
  rewrite (IH _ Hc).
  destruct (c =? a) eqn:E; [by apply N.eqb_eq in E | done].
Qed.

Lemma rfind_from_char_last (c : N) (x leaf : str) (k : nat) :
  c ∉ leaf → rfind_from (x ++ c :: leaf) [c] k = Some (k + length x)%nat.
Proof.
  intros Hc. revert k. induction x as [|a x IH]; intros k.
  - cbn [app rfind_from startswith length].
    rewrite (rfind_from_char_absent _ _ _ Hc), N.eqb_refl, startswith_nil.
    cbn. f_equal. lia.
  - cbn [app rfind_from length]. rewrite IH. f_equal. lia.
Qed.

(** After a directory part the rest is the last component, as long as it
    holds no separator. *)
Lemma basename_after_dir (d leaf : str) :
  47 ∉ leaf → d = [] ∨ endswith d PosixPath.sep = true →
  PosixPath.basename (d ++ leaf) = leaf.
Proof.
  intros Hl [-> | [x ->]%endswith_inv]; unfold PosixPath.basename, rfind.
  - change PosixPath.sep with [47]. cbn [app].
    by rewrite rfind_from_char_absent.
  - change PosixPath.sep with [47]. rewrite <- app_assoc. cbn [app].
    rewrite rfind_from_char_last by done. cbn [Nat.add].
    change (x ++ 47 :: leaf) with (x ++ [47] ++ leaf).
    rewrite app_assoc.
    replace (S (length x)) with (length (x ++ [47]))
      by (rewrite length_app; simpl; lia).
    apply drop_app_length.
Qed.

Lemma basename_no_sep (p : str) : 47 ∉ PosixPath.basename p.
Proof.
  pose proof (rfind_last_occurrence p PosixPath.sep) as H.
  unfold PosixPath.basename.
  destruct (rfind p PosixPath.sep) as [i|].
  - destruct H as [(pre & post & -> & <-) Hlast].
    assert (drop (S (length pre)) (pre ++ PosixPath.sep ++ post) = post) as ->.
    { rewrite app_assoc.
      replace (S (length pre)) with (length (pre ++ PosixPath.sep))
        by (rewrite length_app; simpl; lia).
      apply drop_app_length. }
    intros (a & b & ->)%list_elem_of_split.
    specialize (Hlast (length (pre ++ PosixPath.sep ++ a))).
    rewrite !length_app in Hlast. simpl in Hlast.
    assert (length pre + S (length a) ≤ length pre)%nat; [| lia].
    apply Hlast. exists (pre ++ PosixPath.sep ++ a), b.
    split; [by rewrite <- !app_assoc | by rewrite !length_app].
  - intros (a & b & ->)%list_elem_of_split.
    apply (H (length a)). by exists a, b.
Qed.

(** [os.path.join] puts a name without separator behind a directory part
    that is empty or ends in a separator. *)
Lemma join_leaf (d leaf : str) :
  47 ∉ leaf →
  ∃ x, PosixPath.join d leaf = x ++ leaf
       ∧ (x = [] ∨ endswith x PosixPath.sep = true).
Proof.
  intros Hl. unfold PosixPath.join.
  assert (startswith leaf PosixPath.sep = false) as ->.
  { destruct leaf as [|c leaf]; [done |].
    apply not_elem_of_cons in Hl as [Hc _].
    change PosixPath.sep with [47]. cbn [startswith].
    destruct (47 =? c) eqn:E; [by apply N.eqb_eq in E | done]. }
  unfold PosixPath.str_eqb. case_bool_decide as Hd; cbn [orb].
  - exists d. split; [done | by left].
  - destruct (endswith d PosixPath.sep) eqn:E.
    + exists d. split; [done | by right].
    + exists (d ++ PosixPath.sep).
      split; [by rewrite app_assoc | right; apply endswith_app].
Qed.

(** X14.  The last component of a path holds no separator, and the path
    is a directory part followed by it, where the directory part is
    empty or ends in a separator. *)
Theorem basename_spec (p : str) :
  (47 ∉ PosixPath.basename p)
  ∧ ∃ d, p = d ++ PosixPath.basename p
         ∧ (d = [] ∨ endswith d PosixPath.sep = true).
Proof.
  split; [apply basename_no_sep |].
  pose proof (rfind_last_occurrence p PosixPath.sep) as H.
  unfold PosixPath.basename.
  destruct (rfind p PosixPath.sep) as [i|].
  - destruct H as [(pre & post & -> & <-) _].
    assert (drop (S (length pre)) (pre ++ PosixPath.sep ++ post) = post) as ->.
    { rewrite app_assoc.
      replace (S (length pre)) with (length (pre ++ PosixPath.sep))
        by (rewrite length_app; simpl; lia).
      apply drop_app_length. }
    exists (pre ++ PosixPath.sep).
    split; [by rewrite <- app_assoc | right; apply endswith_app].
  - exists []. split; [done | by left].
Qed.

(** X15.  [basename] undoes [join]: a name without separator that is
    joined to any directory is the last component of the result. *)
Theorem basename_join (d leaf : str) :
  47 ∉ leaf → PosixPath.basename (PosixPath.join d leaf) = leaf.
Proof.
  intros Hl. destruct (join_leaf d leaf Hl) as (x & -> & Hx).
  by apply basename_after_dir.
Qed.

Lemma basename_join_witness :
  (47 ∉ lit "report.pdf")
  ∧ PosixPath.basename (PosixPath.join (lit "/ws/scratch") (lit "report.pdf"))
    = lit "report.pdf".
Proof.
  assert (47 ∉ lit "report.pdf") as H
    by (apply (bool_decide_unpack _); vm_compute; exact I).
  split; [exact H |].
  exact (basename_join (lit "/ws/scratch") (lit "report.pdf") H).
Defined.

(** ** Staging the input *)

Lemma open_wb_ok_inv (path : str) (data : bytes) (w w' : world) :
  open_wb path data w = (Ok (), w') →
  PosixPath.basename path ≠ []
  ∧ PosixPath.basename path ≠ PosixPath.dot
  ∧ PosixPath.basename path ≠ PosixPath.dotdot
  ∧ fs_files w' = <[path := data]> (fs_files w)
  ∧ fs_dirs w' = fs_dirs w.
Proof.
  unfold open_wb. case_bool_decide; [done |].
  repeat case_bool_decide; cbn [orb]; try done.
  intros ?; simplify_eq. by repeat split.
Qed.

(** The local side of a successful copy. *)
Lemma copy_pdf_staged (scratch_dir filepath local : str) (w w' : world) :
  copy_pdf_from_gptscript_workspace scratch_dir filepath w = (Ok local, w') →
  ∃ data,
    ws_files w !! workspace_path filepath = Some data
    ∧ plain_segment (PosixPath.basename filepath)
    ∧ local = PosixPath.join scratch_dir (PosixPath.basename filepath)
    ∧ PosixPath.basename local = PosixPath.basename filepath
    ∧ fs_files w' = <[local := data]> (fs_files w).
Proof.
  unfold copy_pdf_from_gptscript_workspace. rewrite prepend_files.
  autounfold with run. unfold read_file_in_workspace.
  destruct (ws_fails w _); [done |].
  destruct (ws_files w !! _) as [data|] eqn:Hd; [| done].
  destruct (open_wb _ data _) as [[[]|e] w1] eqn:Ho; [| done].
  intros ?; simplify_eq. exists data.
  pose proof (basename_no_sep filepath) as Hsep.
  assert (PosixPath.basename
            (PosixPath.join scratch_dir (PosixPath.basename filepath))
          = PosixPath.basename filepath) as Hbj.
  { destruct (join_leaf scratch_dir _ Hsep) as (x & -> & Hx).
    by apply basename_after_dir. }
  apply open_wb_ok_inv in Ho as (H1 & H2 & H3 & Hf & _).
  rewrite Hbj in H1, H2, H3. cbn in Hf.
  by repeat split.
Qed.

(** X16.  A successful copy puts exactly one file on the local disk: it
    sits directly in the scratch directory, its name is the last
    component of the input name (a plain name: not empty, not [.] or
    [..], without separator), and it holds the bytes the workspace holds
    for the input.  No other local file is touched. *)
Theorem copy_pdf_stages_leaf (scratch_dir filepath local : str)
    (w w' : world) :
  copy_pdf_from_gptscript_workspace scratch_dir filepath w = (Ok local, w') →
  ∃ wksp_file_path data,
    prepend_base_path (lit "files") filepath = Ok wksp_file_path
    ∧ ws_files w !! wksp_file_path = Some data
    ∧ plain_segment (PosixPath.basename filepath)
    ∧ local = PosixPath.join scratch_dir (PosixPath.basename filepath)
    ∧ PosixPath.basename local = PosixPath.basename filepath
    ∧ fs_files w' = <[local := data]> (fs_files w)
    ∧ read_local local w' = (Ok data, w').
Proof.
  intros H.
  apply copy_pdf_staged in H as (data & Hd & Hplain & -> & Hb & Hf).
  exists (workspace_path filepath), data.
  split; [apply prepend_files |]. do 5 (split; [done |]).
  unfold read_local. by rewrite Hf, lookup_insert_eq.
Qed.

(** ** The scratch directory *)

(** X17.  Creating the scratch directory is idempotent: once it has
    succeeded, doing it again returns the same path and changes nothing.
    The directory is registered on the local disk and its last component
    is [scratch], whatever the workspace root is. *)
Theorem create_scratch_dir_idempotent (w w' : world) (path : str) :
  create_scratch_dir w = (Ok path, w') →
  create_scratch_dir w' = (Ok path, w')
  ∧ path ∈ fs_dirs w'
  ∧ PosixPath.basename path = lit "scratch".
Proof.
  intros H. pose proof (create_scratch_dir_frame _ _ _ H) as (He & _).
  apply create_scratch_dir_ok in H as (dir & Hdir & -> & Hin & Hf & Hnf).
  assert (47 ∉ lit "scratch") as Hs
    by (apply (bool_decide_unpack _); vm_compute; exact I).
  assert (PosixPath.basename (PosixPath.join dir (lit "scratch"))
          = lit "scratch") as Hb.
  { destruct (join_leaf dir _ Hs) as (x & -> & Hx).
    by apply basename_after_dir. }
  split; [| by split].
  unfold create_scratch_dir. autounfold with run. rewrite He, Hdir.
  unfold makedirs.
  rewrite bool_decide_eq_false_2.
  2:{ intros Hnil. by rewrite Hnil in Hb. }
  rewrite Hf, bool_decide_eq_false_2 by done.
  by rewrite bool_decide_eq_true_2.
Qed.

(** ** The further properties on the sample runs *)

Lemma main_keeps_written_pages_witness :
  let w := Faults.flaky in
  let w' := (Sample.main w).2 in
  Sample.main w = (Raise WorkspaceError, w')
  ∧ ws_writes w' ≠ ws_writes w
  ∧ (WorkspaceError = WorkspaceError
     ∧ ∃ name base_name data doc k,
         environ w !! lit "PDF_FILE" = Some name
         ∧ base_name_of name = Ok base_name
         ∧ ws_files w !! workspace_path name = Some data
         ∧ Sample.parse_pdf data = Some doc
         ∧ (k < length doc)%nat
         ∧ ws_calls w'
           = ws_calls w ++ WsRead (workspace_path name)
               :: page_writes Sample.save_png base_name 0
                    (take (S k)
                       (Tool.render Sample.get_pixmap Sample.frombytes
                          default_dpi <$> doc))
         ∧ ws_files w'
           = store_after
               (page_writes Sample.save_png base_name 0
                  (take k
                     (Tool.render Sample.get_pixmap Sample.frombytes
                        default_dpi <$> doc)))
               (ws_files w)).
Proof.
  intros w w'.
  assert (Sample.main w = (Raise WorkspaceError, w')) as H1
    by (vm_compute; reflexivity).
  assert (ws_writes w' ≠ ws_writes w) as H2 by (vm_compute; discriminate).
  split; [exact H1 |]. split; [exact H2 |].
  exact (main_keeps_written_pages Sample.parse_pdf Sample.get_pixmap
           Sample.frombytes Sample.save_png w w' WorkspaceError H1 H2).
Defined.

(** On the sample: the first page is in the workspace, the second and
    the third are not. *)
Lemma flaky_run :
  ws_files (Sample.main Faults.flaky).2 !! lit "files/report_page_0.png"
  = Some (Sample.save_png [Byte.x01; Byte.x01; Byte.x01])
  ∧ ws_files (Sample.main Faults.flaky).2 !! lit "files/report_page_1.png"
    = None
  ∧ ws_files (Sample.main Faults.flaky).2 !! lit "files/report_page_2.png"
    = None.
Proof. repeat split; vm_compute; reflexivity. Qed.

Lemma main_not_a_pdf_witness :
  let w := Faults.not_a_pdf in
  let w' := (Sample.main w).2 in
  Sample.main w = (Raise FileDataError, w')
  ∧ ∃ dir name data,
      environ w !! lit "GPTSCRIPT_WORKSPACE_DIR" = Some dir
      ∧ environ w !! lit "PDF_FILE" = Some name
      ∧ ws_files w !! workspace_path name = Some data
      ∧ Sample.parse_pdf data = None
      ∧ fs_files w' !! PosixPath.join (PosixPath.join dir (lit "scratch"))
                                      (PosixPath.basename name) = Some data
      ∧ ws_calls w' = ws_calls w ++ [WsRead (workspace_path name)]
      ∧ ws_files w' = ws_files w.
Proof.
  intros w w'.
  assert (Sample.main w = (Raise FileDataError, w')) as H
    by (vm_compute; reflexivity).
  split; [exact H |].
  exact (main_not_a_pdf Sample.parse_pdf Sample.get_pixmap Sample.frombytes
           Sample.save_png w w' H).
Defined.

Lemma main_input_unreadable_witness :
  let w := Faults.missing in
  let w' := (Sample.main w).2 in
  Sample.main w = (Raise WorkspaceError, w')
  ∧ ws_writes w' = ws_writes w
  ∧ ∃ name,
      environ w !! lit "PDF_FILE" = Some name
      ∧ (ws_fails w (length (ws_calls w)) = true
         ∨ ws_files w !! workspace_path name = None)
      ∧ ws_calls w' = ws_calls w ++ [WsRead (workspace_path name)]
      ∧ fs_files w' = fs_files w
      ∧ ws_files w' = ws_files w.
Proof.
  intros w w'.
  assert (Sample.main w = (Raise WorkspaceError, w')) as H1
    by (vm_compute; reflexivity).
  assert (ws_writes w' = ws_writes w) as H2 by (vm_compute; reflexivity).
  split; [exact H1 |]. split; [exact H2 |].
  exact (main_input_unreadable Sample.parse_pdf Sample.get_pixmap
           Sample.frombytes Sample.save_png w w' H1 H2).
Defined.

Lemma main_names_fresh_witness :
  let w := Sample.report in
  let r := {[ lit "images" := [lit "report_page_0.png";
                               lit "report_page_1.png";
                               lit "report_page_2.png"] ]} in
  let w' := (Sample.main w).2 in
  Sample.main w = (Ok r, w')
  ∧ ∃ name names,
      environ w !! lit "PDF_FILE" = Some name
      ∧ r !! lit "images" = Some names
      ∧ NoDup names
      ∧ name ∉ names.
Proof.
  intros w r w'.
  assert (Sample.main w = (Ok r, w')) as H by (vm_compute; reflexivity).
  split; [exact H |].
  exact (main_names_fresh Sample.parse_pdf Sample.get_pixmap Sample.frombytes
           Sample.save_png w w' r H).
Defined.

Lemma main_writes_match_names_witness :
  let w := Sample.nested in
  let r := {[ lit "images" := [lit "foo/report_page_0.png"] ]} in
  let w' := (Sample.main w).2 in
  Sample.main w = (Ok r, w')
  ∧ ∃ names writes,
      r !! lit "images" = Some names
      ∧ ws_writes w' = ws_writes w ++ writes
      ∧ Forall2 (λ name c, ∃ path data,
                   c = WsWrite path data
                   ∧ prepend_base_path (lit "files") name = Ok path)
          names writes.
Proof.
  intros w r w'.
  assert (Sample.main w = (Ok r, w')) as H by (vm_compute; reflexivity).
  split; [exact H |].
  exact (main_writes_match_names Sample.parse_pdf Sample.get_pixmap
           Sample.frombytes Sample.save_png w w' r H).
Defined.

Lemma copy_pdf_stages_leaf_witness :
  let w := (create_scratch_dir Sample.nested).2 in
  let scratch_dir := lit "/ws/scratch" in
  let filepath := lit "foo/report.pdf" in
  let local := lit "/ws/scratch/report.pdf" in
  let w' := (copy_pdf_from_gptscript_workspace scratch_dir filepath w).2 in
  copy_pdf_from_gptscript_workspace scratch_dir filepath w = (Ok local, w')
  ∧ ∃ wksp_file_path data,
      prepend_base_path (lit "files") filepath = Ok wksp_file_path
      ∧ ws_files w !! wksp_file_path = Some data
      ∧ plain_segment (PosixPath.basename filepath)
      ∧ local = PosixPath.join scratch_dir (PosixPath.basename filepath)
      ∧ PosixPath.basename local = PosixPath.basename filepath
      ∧ fs_files w' = <[local := data]> (fs_files w)
      ∧ read_local local w' = (Ok data, w').
Proof.
  intros w scratch_dir filepath local w'.
  assert (copy_pdf_from_gptscript_workspace scratch_dir filepath w
          = (Ok local, w')) as H by (vm_compute; reflexivity).
  split; [exact H |].
  exact (copy_pdf_stages_leaf scratch_dir filepath local w w' H).
Defined.

Lemma create_scratch_dir_idempotent_witness :
  let w := Sample.report in
  let w' := (create_scratch_dir w).2 in
  create_scratch_dir w = (Ok (lit "/ws/scratch"), w')
  ∧ (create_scratch_dir w' = (Ok (lit "/ws/scratch"), w')
     ∧ lit "/ws/scratch" ∈ fs_dirs w'
     ∧ PosixPath.basename (lit "/ws/scratch") = lit "scratch").
Proof.
  intros w w'.
  assert (create_scratch_dir w = (Ok (lit "/ws/scratch"), w')) as H
    by (vm_compute; reflexivity).
  split; [exact H |].
  exact (create_scratch_dir_idempotent w w' (lit "/ws/scratch") H).
Defined.

(** ** Misconfiguration *)

Lemma makedirs_raise_kind (path : str) (w w' : world) (e : exn) :
  makedirs path w = (Raise e, w') →
  e ∈ [FileNotFoundError; FileExistsError; PermissionError].
Proof.
  unfold makedirs. repeat case_bool_decide; intros; simplify_eq; kinds.
Qed.

Lemma open_wb_raise_kind (path : str) (data : bytes) (w w' : world) (e : exn) :
  open_wb path data w = (Raise e, w') →
  e ∈ [FileNotFoundError; IsADirectoryError; PermissionError].
Proof.
  unfold open_wb. case_bool_decide; [intros; simplify_eq; kinds |].
  destruct (_ || _); [intros; simplify_eq; kinds |].
  case_bool_decide; intros; simplify_eq; kinds.
Qed.

Lemma copy_pdf_raise_kind (scratch_dir filepath : str) (w w' : world)
    (e : exn) :
  copy_pdf_from_gptscript_workspace scratch_dir filepath w = (Raise e, w') →
  e ∈ [WorkspaceError; FileNotFoundError; IsADirectoryError; PermissionError].
Proof.
  unfold copy_pdf_from_gptscript_workspace. rewrite prepend_files.
  autounfold with run. unfold read_file_in_workspace.
  destruct (ws_fails w _); [intros; simplify_eq; kinds |].
  destruct (ws_files w !! _) as [data|]; [| intros; simplify_eq; kinds].
  destruct (open_wb _ data _) as [[[]|e'] w1] eqn:Ho; [done |].
  intros ?; simplify_eq. apply open_wb_raise_kind in Ho. kinds.
Qed.

Lemma create_scratch_dir_raise_kind (w w' : world) (e : exn) :
  create_scratch_dir w = (Raise e, w') →
  (e = TypeError ∧ environ w !! lit "GPTSCRIPT_WORKSPACE_DIR" = None)
  ∨ (e ∈ [FileNotFoundError; FileExistsError; PermissionError]
     ∧ is_Some (environ w !! lit "GPTSCRIPT_WORKSPACE_DIR")).
Proof.
  unfold create_scratch_dir. autounfold with run.
  destruct (environ w !! _) as [dir|]; [| intros; simplify_eq; by left].
  destruct (makedirs _ w) as [[[]|e'] w1] eqn:Hm; [done |].
  intros ?; simplify_eq. right. split; [| done].
  by eapply makedirs_raise_kind.
Qed.

Section Misconfiguration.

Context {page image : Type}.
Variable parse_pdf : bytes → option (list page).
Variable get_pixmap : page → Matrix → Pixmap.
Variable frombytes : str → N * N → bytes → image.
Variable save_png : image → bytes.

Abbreviation main := (Tool.main parse_pdf get_pixmap frombytes save_png).

(** What a run can raise once both variables are read: never
    [TypeError], never [AttributeError]. *)
Lemma main_late_raise_kind (w w' w1 : world) (e : exn) (d name : str) :
  create_scratch_dir w = (Ok d, w1) →
  environ w !! lit "PDF_FILE" = Some name →
  main w = (Raise e, w') →
  e ∈ [WorkspaceError; FileNotFoundError; IsADirectoryError; PermissionError;
       FileDataError].
Proof.
  intros Hc Hn Hm.
  apply (main_raise_cases parse_pdf get_pixmap frombytes save_png) in Hm
    as [Hc' | [(d' & Hc' & Hn' & _) | (d' & w1' & name' & Hc' & _ & Hrest)]];
    [congruence.. |].
  destruct Hrest as [Hcp | (local & w2 & _ & Hrest)].
  { apply copy_pdf_raise_kind in Hcp. kinds. }
  destruct Hrest as [Hcv | (base_name & data & doc & _ & _ & _ & Hs)].
  { apply (convert_pdf_to_images_raise parse_pdf get_pixmap frombytes) in Hcv
      as [_ [[-> _] | [-> _]]]; kinds. }
  pose proof (save_loop_outcome save_png base_name
                (Tool.render get_pixmap frombytes default_dpi <$> doc)
                0 [] w2) as Ho.
  rewrite Hs in Ho. destruct Ho as [-> _]. kinds.
Qed.

(** X18.  The two configuration errors have their own signatures.  A run
    ends in [TypeError] exactly when the workspace-root variable is not
    set, and then the world is untouched.  It ends in [AttributeError]
    exactly when the scratch directory could be created and the
    input-file-name variable is not set; the scratch directory is then
    all that was created. *)
Theorem main_misconfigured (w w' : world) :
  (main w = (Raise TypeError, w')
   ↔ environ w !! lit "GPTSCRIPT_WORKSPACE_DIR" = None ∧ w' = w)
  ∧ (main w = (Raise AttributeError, w')
     ↔ environ w !! lit "PDF_FILE" = None
       ∧ ∃ d, create_scratch_dir w = (Ok d, w')).
Proof.
  split; split.
  - intros Hm.
    destruct (create_scratch_dir w) as [[d|e] w1] eqn:Hc.
    + destruct (environ w !! lit "PDF_FILE") as [name|] eqn:Hn.
      * pose proof (main_late_raise_kind _ _ _ _ _ _ Hc Hn Hm). kinds.
      * rewrite (main_unfold parse_pdf get_pixmap frombytes save_png) in Hm.
        rewrite Hc in Hm.
        pose proof (create_scratch_dir_frame _ _ _ Hc) as (He & _).
        rewrite He, Hn in Hm. by simplify_eq.
    + rewrite (main_unfold parse_pdf get_pixmap frombytes save_png) in Hm.
      rewrite Hc in Hm. simplify_eq.
      pose proof (create_scratch_dir_raise _ _ _ Hc) as [-> _].
      apply create_scratch_dir_raise_kind in Hc as [[_ ?] | [? _]];
        [done | kinds].
  - intros [Hd ->].
    rewrite (main_unfold parse_pdf get_pixmap frombytes save_png).
    by rewrite (create_scratch_dir_unset _ Hd).
  - intros Hm.
    destruct (create_scratch_dir w) as [[d|e] w1] eqn:Hc.
    + destruct (environ w !! lit "PDF_FILE") as [name|] eqn:Hn.
      * pose proof (main_late_raise_kind _ _ _ _ _ _ Hc Hn Hm). kinds.
      * rewrite (main_unfold parse_pdf get_pixmap frombytes save_png) in Hm.
        rewrite Hc in Hm.
        pose proof (create_scratch_dir_frame _ _ _ Hc) as (He & _).
        rewrite He, Hn in Hm. simplify_eq. split; [done | by exists d].
    + rewrite (main_unfold parse_pdf get_pixmap frombytes save_png) in Hm.
      rewrite Hc in Hm. simplify_eq.
      apply create_scratch_dir_raise_kind in Hc as [[? _] | [? _]];
        [done | kinds].
  - intros [Hn [d Hc]].
    rewrite (main_unfold parse_pdf get_pixmap frombytes save_png), Hc.
    pose proof (create_scratch_dir_frame _ _ _ Hc) as (He & _).
    by rewrite He, Hn.
Qed.

End Misconfiguration.

(** ** UTF-8 can be read back *)

(** A property checked on every number below [n] holds below [n]. *)
Lemma below_all (P : N → bool) (n : nat) :
  forallb P (N.of_nat <$> seq 0 n) = true →
  ∀ x, x < N.of_nat n → P x = true.
Proof.
  intros H x Hx. rewrite forallb_forall in H. apply H.
  apply list_elem_of_In, list_elem_of_fmap. exists (N.to_nat x).
  split; [by rewrite N2Nat.id |]. apply elem_of_seq. lia.
Qed.

(** Setting the marker bits of an octet adds them: the payload is below
    the lowest marker bit. *)
Lemma lor_marker (x : N) :
  x < 64 →
  N.lor 128 x = 128 + x
  ∧ (x < 32 → N.lor 192 x = 192 + x)
  ∧ (x < 16 → N.lor 224 x = 224 + x)
  ∧ (x < 8 → N.lor 240 x = 240 + x).
Proof.
  intros Hx.
  pose proof (below_all
    (λ x, (N.lor 128 x =? 128 + x)
          && (negb (x <? 32) || (N.lor 192 x =? 192 + x))
          && (negb (x <? 16) || (N.lor 224 x =? 224 + x))
          && (negb (x <? 8) || (N.lor 240 x =? 240 + x)))
    64 eq_refl x Hx) as H.
  cbv beta in H.
  apply andb_true_iff in H as [H H4]. apply andb_true_iff in H as [H H3].
  apply andb_true_iff in H as [H1 H2]. apply N.eqb_eq in H1.
  split; [done |]. repeat split; intros Hb%N.ltb_lt.
  - rewrite Hb in H2. by apply N.eqb_eq in H2.
  - rewrite Hb in H3. by apply N.eqb_eq in H3.
  - rewrite Hb in H4. by apply N.eqb_eq in H4.
Qed.

Lemma octet_val (n : N) : n < 256 → Byte.to_N (octet n) = n.
Proof.
  intros Hn. unfold octet. change 255 with (N.ones 8).
  rewrite N.land_ones, N.mod_small by done.
  destruct (Byte.of_N n) as [b|] eqn:E; [by apply Byte.to_of_N |].
  apply Byte.of_N_None_iff in E. lia.
Qed.

Lemma cont_val (c sh : N) :
  Byte.to_N (cont c sh) = 128 + (c / 2 ^ sh) mod 64.
Proof.
  unfold cont. change 63 with (N.ones 6).
  rewrite N.land_ones, N.shiftr_div_pow2. change (2 ^ 6) with 64.
  assert ((c / 2 ^ sh) mod 64 < 64) as Hlt by (apply N.mod_lt; lia).
  destruct (lor_marker _ Hlt) as [-> _]. apply octet_val. lia.
Qed.

(** The octets of one code point, as numbers. *)
Lemma encode_char_val (c : N) (bs : bytes) :
  encode_char c = Ok bs →
  Byte.to_N <$> bs
  = if c <? 128 then [c]
    else if c <? 2048 then [192 + c / 64; 128 + c mod 64]
    else if c <? 65536 then
      [224 + c / 4096; 128 + (c / 64) mod 64; 128 + c mod 64]
    else [240 + c / 262144; 128 + (c / 4096) mod 64;
          128 + (c / 64) mod 64; 128 + c mod 64].
Proof.
  unfold encode_char.
  destruct (c <? 128) eqn:E1.
  { apply N.ltb_lt in E1. intros ?; simplify_eq. cbn [fmap list_fmap].
    rewrite octet_val by lia. done. }
  apply N.ltb_ge in E1.
  destruct (c <? 2048) eqn:E2.
  { apply N.ltb_lt in E2. intros ?; simplify_eq. cbn [fmap list_fmap].
    rewrite cont_val, N.shiftr_div_pow2.
    change (2 ^ 6) with 64. change (2 ^ 0) with 1. rewrite N.div_1_r.
    assert (c / 64 < 64) as H6 by divmod.
    destruct (lor_marker _ H6) as (_ & Hm & _). rewrite Hm by divmod.
    rewrite octet_val by divmod. done. }
  apply N.ltb_ge in E2.
  destruct (c <? 65536) eqn:E3.
  { apply N.ltb_lt in E3. destruct (_ && _); [done |].
    intros ?; simplify_eq. cbn [fmap list_fmap].
    rewrite !cont_val, N.shiftr_div_pow2.
    change (2 ^ 12) with 4096. change (2 ^ 6) with 64.
    change (2 ^ 0) with 1. rewrite N.div_1_r.
    assert (c / 4096 < 64) as H6 by divmod.
    destruct (lor_marker _ H6) as (_ & _ & Hm & _). rewrite Hm by divmod.
    rewrite octet_val by divmod. done. }
  apply N.ltb_ge in E3.
  destruct (c <? 1114112) eqn:E4; [| done].
  apply N.ltb_lt in E4. intros ?; simplify_eq. cbn [fmap list_fmap].
  rewrite !cont_val, N.shiftr_div_pow2.
  change (2 ^ 18) with 262144. change (2 ^ 12) with 4096.
  change (2 ^ 6) with 64. change (2 ^ 0) with 1. rewrite N.div_1_r.
  assert (c / 262144 < 64) as H6 by divmod.
  destruct (lor_marker _ H6) as (_ & _ & _ & Hm). rewrite Hm by divmod.
  rewrite octet_val by divmod. done.
Qed.

(** Reading the octets of a code point back gives the code point and
    leaves what follows them. *)
Lemma decode_encode_char (c : N) (bs r : bytes) :
  encode_char c = Ok bs → decode_char (bs ++ r) = Some (c, r).
Proof.
  intros H. apply encode_char_val in H.
  destruct (N.ltb_spec c 128) as [E1|E1];
    [| destruct (N.ltb_spec c 2048) as [E2|E2];
       [| destruct (N.ltb_spec c 65536) as [E3|E3]]].
  - destruct bs as [|b0 [|]]; cbn [fmap list_fmap] in H; try done.
    injection H as H0. cbn [app decode_char]. rewrite H0.
    destruct (N.ltb_spec c 128); [done | lia].
  - destruct bs as [|b0 [|b1 [|]]]; cbn [fmap list_fmap] in H; try done.
    injection H as H0 H1. cbn [app decode_char]. rewrite H0, H1.
    destruct (N.ltb_spec (192 + c / 64) 128); [exfalso; divmod |].
    destruct (N.ltb_spec (192 + c / 64) 224); [| exfalso; divmod].
    do 2 f_equal. divmod.
  - destruct bs as [|b0 [|b1 [|b2 [|]]]]; cbn [fmap list_fmap] in H;
      try done.
    injection H as H0 H1 H2. cbn [app decode_char]. rewrite H0, H1, H2.
    destruct (N.ltb_spec (224 + c / 4096) 128); [exfalso; divmod |].
    destruct (N.ltb_spec (224 + c / 4096) 224); [exfalso; divmod |].
    destruct (N.ltb_spec (224 + c / 4096) 240); [| exfalso; divmod].
    do 2 f_equal. divmod.
  - destruct bs as [|b0 [|b1 [|b2 [|b3 [|]]]]]; cbn [fmap list_fmap] in H;
      try done.
    injection H as H0 H1 H2 H3. cbn [app decode_char].
    rewrite H0, H1, H2, H3.
    destruct (N.ltb_spec (240 + c / 262144) 128); [exfalso; divmod |].
    destruct (N.ltb_spec (240 + c / 262144) 224); [exfalso; divmod |].
    destruct (N.ltb_spec (240 + c / 262144) 240); [exfalso; divmod |].
    do 2 f_equal. divmod.
Qed.

Lemma encode_char_nonempty (c : N) : encode_char c ≠ Ok [].
Proof.
  intros H. by pose proof (decode_encode_char c [] [] H).
Qed.

(** Two texts with the same UTF-8 form are the same text. *)
Lemma encode_utf8_inj (s t : str) (b : bytes) :
  encode_utf8 s = Ok b → encode_utf8 t = Ok b → s = t.
Proof.
  revert t b. induction s as [|c s IH]; intros [|c' t] b Hs Ht;
    cbn [encode_utf8] in Hs, Ht.
  - done.
  - destruct (encode_char c') as [bc'|] eqn:Ec'; [| done].
    destruct (encode_utf8 t) as [bs'|]; [| done].
    injection Hs as <-. injection Ht as Ht.
    apply app_eq_nil in Ht as [-> _].
    by apply encode_char_nonempty in Ec'.
  - destruct (encode_char c) as [bc|] eqn:Ec; [| done].
    destruct (encode_utf8 s) as [bs|]; [| done].
    injection Ht as <-. injection Hs as Hs.
    apply app_eq_nil in Hs as [-> _].
    by apply encode_char_nonempty in Ec.
  - destruct (encode_char c) as [bc|] eqn:Ec; [| done].
    destruct (encode_utf8 s) as [bs|] eqn:Es; [| done].
    destruct (encode_char c') as [bc'|] eqn:Ec'; [| done].
    destruct (encode_utf8 t) as [bs'|] eqn:Et; [| done].
    injection Hs as <-. injection Ht as Ht.
    pose proof (decode_encode_char c bc bs Ec) as D.
    pose proof (decode_encode_char c' bc' bs' Ec') as D'.
    rewrite Ht in D'. rewrite D in D'. simplify_eq.
    f_equal. by eapply IH.
Qed.

(** X19.  Saving a text is faithful: when two texts are saved under the
    same name from the same state, both saves succeed, and the workspace
    then holds the same bytes under that name, the two texts are the same
    text.  [content.encode("utf-8")] loses nothing. *)
Theorem save_text_faithful (filepath s t : str) (w ws wt : world) :
  save_to_gptscript_workspace filepath (CStr s) w = (Ok (), ws) →
  save_to_gptscript_workspace filepath (CStr t) w = (Ok (), wt) →
  ws_files ws !! workspace_path filepath
  = ws_files wt !! workspace_path filepath →
  s = t.
Proof.
  unfold save_to_gptscript_workspace. autounfold with run.
  rewrite prepend_files.
  destruct (encode_utf8 s) as [bs|] eqn:Es; [| done].
  destruct (encode_utf8 t) as [bt|] eqn:Et; [| done].
  unfold write_file_in_workspace.
  destruct (ws_fails w (length (ws_calls w))); [done |].
  intros ? ? Hf; simplify_eq. cbn in Hf.
  rewrite !lookup_insert_eq in Hf. simplify_eq.
  by eapply encode_utf8_inj.
Qed.

Lemma save_text_faithful_witness :
  let w := Sample.report in
  let s := [104; 233; 8364; 128512] in
  let w' := (save_to_gptscript_workspace (lit "notes.txt") (CStr s) w).2 in
  save_to_gptscript_workspace (lit "notes.txt") (CStr s) w = (Ok (), w')
  ∧ s = s.
Proof.
  intros w s w'.
  assert (save_to_gptscript_workspace (lit "notes.txt") (CStr s) w
          = (Ok (), w')) as H by (vm_compute; reflexivity).
  split; [exact H |].
  exact (save_text_faithful (lit "notes.txt") s s w w' w' H H eq_refl).
Defined.

(** ** What a successful run leaves in the workspace *)

(** The workspace path of a name is the name itself or the name behind
    [files/]. *)
Lemma workspace_path_cases (q : str) :
  workspace_path q = q
  ∨ workspace_path q = lit "files" ++ PosixPath.sep ++ q.
Proof.
  unfold workspace_path. case_bool_decide; [by left |].
  unfold PosixPath.join. destruct (startswith q PosixPath.sep); [by left |].
  by right.
Qed.

Lemma workspace_path_meet (p q : str) :
  workspace_path p = workspace_path q →
  p = q
  ∨ p = lit "files" ++ PosixPath.sep ++ q
  ∨ q = lit "files" ++ PosixPath.sep ++ p.
Proof.
  destruct (workspace_path_cases p) as [-> | ->],
    (workspace_path_cases q) as [-> | ->]; intros H; auto.
  left. by apply app_inv_head, app_inv_head in H.
Qed.

(** A number is written with digits only, and with at least one. *)
Lemma uint_digits (d : Decimal.uint) :
  Forall (λ c, 48 ≤ c ∧ c ≤ 57) (lit (NilEmpty.string_of_uint d)).
Proof.
  unfold lit.
  induction d; cbn [NilEmpty.string_of_uint list_ascii_of_string fmap list_fmap];
    constructor; (done || (split; by vm_compute)).
Qed.

Lemma of_nat_head (i : nat) :
  ∃ c rest, of_nat i = c :: rest ∧ 48 ≤ c ∧ c ≤ 57.
Proof.
  unfold of_nat, NilZero.string_of_uint.
  pose proof (uint_digits (Nat.to_uint i)) as H.
  pose proof (to_uint_nonnil i) as Hn.
  destruct (Nat.to_uint i) as [|d|d|d|d|d|d|d|d|d|d]; [done | ..];
    apply Forall_cons in H as [H _]; eexists _, _; (split; [done | exact H]).
Qed.

(** When a list can be moved from behind [u] to before [v], then [v]
    holds only elements of [u]. *)
Lemma conjugate_elems {A} (u b v : list A) (x : A) :
  u ++ b = b ++ v → x ∈ v → x ∈ u.
Proof.
  remember (length b) as n eqn:Hn. revert b v Hn.
  induction n as [n IH] using lt_wf_ind. intros b v -> H Hx.
  destruct u as [|a u].
  { apply (f_equal length) in H. rewrite !length_app in H. cbn in H.
    destruct v; [by apply elem_of_nil in Hx | cbn in H; lia]. }
  apply app_eq_inv in H as [(k & -> & ->) | (k & -> & Hk)].
  - apply elem_of_app in Hx as [Hx | Hx]; apply elem_of_app; auto.
  - apply (IH (length k)) with (b := k) (v := v); [| done | done | done].
    rewrite length_app. cbn. lia.
Qed.

Lemma no_dot_in_files : 46 ∉ lit "files" ++ PosixPath.sep.
Proof. apply (bool_decide_unpack _). vm_compute. exact I. Qed.

(** A page name is never another page name of the run behind [files/]. *)
Lemma page_name_not_behind_page (b : str) (i j : nat) :
  page_file_name b i
  ≠ lit "files" ++ PosixPath.sep ++ page_file_name b j.
Proof.
  unfold page_file_name. intros H.
  assert ((b ++ lit "_page_") ++ of_nat i
          = (lit "files" ++ PosixPath.sep ++ b) ++ lit "_page_" ++ of_nat j)
    as H'.
  { apply (app_inv_tail (lit ".png")). rewrite <- !app_assoc. exact H. }
  apply app_inj_2 in H' as [_ H'].
  - destruct (of_nat_head i) as (c & rest & Hc & _ & Hhi).
    rewrite Hc in H'. change (lit "_page_") with [95; 112; 97; 103; 101; 95] in H'.
    injection H' as -> _. lia.
  - apply (f_equal length) in H'. rewrite !length_app in H'.
    rewrite !length_app. count_lits. lia.
Qed.

(** A page name is never the input name behind [files/]. *)
Lemma page_name_not_behind_input (name b : str) (i : nat) :
  base_name_of name = Ok b →
  page_file_name b i ≠ lit "files" ++ PosixPath.sep ++ name.
Proof.
  intros [[-> _] | (tail & -> & _)]%base_name_of_cut; unfold page_file_name;
    intros H.
  - apply (f_equal length) in H. rewrite !length_app in H. count_lits. lia.
  - assert ((b ++ lit "_page_") ++ of_nat i ++ lit ".png"
            = (lit "files" ++ PosixPath.sep ++ b) ++ lit ".pdf" ++ tail)
      as H' by (rewrite <- !app_assoc; exact H).
    apply app_inj_2 in H' as [_ H'].
    + destruct (of_nat_head i) as (c & rest & Hc & Hlo & _).
      rewrite Hc in H'. change (lit ".pdf") with [46; 112; 100; 102] in H'.
      injection H' as -> _. lia.
    + apply (f_equal length) in H'. rewrite !length_app in H'.
      rewrite !length_app. count_lits. lia.
Qed.

(** The input name is never a page name of the run behind [files/]. *)
Lemma input_not_behind_page_name (name b : str) (i : nat) :
  base_name_of name = Ok b →
  name ≠ lit "files" ++ PosixPath.sep ++ page_file_name b i.
Proof.
  intros [[-> _] | (tail & -> & _)]%base_name_of_cut; unfold page_file_name;
    intros H.
  - apply (f_equal length) in H. rewrite !length_app in H. count_lits. lia.
  - assert (length tail = 12 + length (of_nat i))%nat as Hlen.
    { apply (f_equal length) in H. rewrite !length_app in H. count_lits. lia. }
    rewrite <- (take_drop 2 tail) in H.
    assert ((b ++ lit ".pdf" ++ take 2 tail) ++ drop 2 tail
            = ((lit "files" ++ PosixPath.sep) ++ b)
              ++ lit "_page_" ++ of_nat i ++ lit ".png")
      as H' by (rewrite <- !app_assoc; exact H).
    apply app_inj_2 in H' as [H' _].
    + apply (no_dot_in_files).
      apply (conjugate_elems _ b (lit ".pdf" ++ take 2 tail)); [done |].
      change (lit ".pdf") with [46; 112; 100; 102]. set_solver.
    + rewrite length_drop, !length_app, Hlen. count_lits. lia.
Qed.

(** No two pages of a run go to the same workspace path. *)
Lemma page_path_inj (b : str) (i j : nat) :
  workspace_path (page_file_name b i) = workspace_path (page_file_name b j) →
  i = j.
Proof.
  intros [H | [H | H]]%workspace_path_meet.
  - by apply page_file_name_inj in H.
  - by apply page_name_not_behind_page in H.
  - by apply page_name_not_behind_page in H.
Qed.

(** No page of a run goes to the workspace path of the input. *)
Lemma page_path_not_input (name b : str) (i : nat) :
  base_name_of name = Ok b →
  workspace_path (page_file_name b i) ≠ workspace_path name.
Proof.
  intros Hb [H | [H | H]]%workspace_path_meet.
  - by eapply page_file_name_not_input.
  - by eapply page_name_not_behind_input.
  - by eapply input_not_behind_page_name.
Qed.

Section Store.

Context {page image : Type}.
Variable parse_pdf : bytes → option (list page).
Variable get_pixmap : page → Matrix → Pixmap.
Variable frombytes : str → N * N → bytes → image.
Variable save_png : image → bytes.

(** The writes of the saving loop leave every other path of the store as
    it was. *)
Lemma store_after_pages_other (b : str) (images : list image) (i : nat)
    (files : gmap str bytes) (p : str) :
  (∀ j, (j < length images)%nat →
        p ≠ workspace_path (page_file_name b (i + j))) →
  store_after (page_writes save_png b i images) files !! p = files !! p.
Proof.
  revert i files. induction images as [|img images IH]; intros i files Hp.
  - done.
  - rewrite page_writes_cons, store_after_cons, IH.
    + apply lookup_insert_ne. intros <-.
      apply (Hp 0%nat); [cbn; lia | by rewrite Nat.add_0_r].
    + intros j Hj. rewrite Nat.add_succ_comm. apply Hp. cbn. lia.
Qed.

(** After the writes of the saving loop every page is in the store, under
    its own path. *)
Lemma store_after_pages_at (b : str) (images : list image) (i k : nat)
    (img : image) (files : gmap str bytes) :
  images !! k = Some img →
  store_after (page_writes save_png b i images) files
    !! workspace_path (page_file_name b (i + k))
  = Some (save_png img).
Proof.
  revert i k files. induction images as [|x images IH]; intros i k files Hk.
  - done.
  - rewrite page_writes_cons, store_after_cons. destruct k as [|k].
    + cbn in Hk. simplify_eq. rewrite Nat.add_0_r.
      rewrite store_after_pages_other; [apply lookup_insert_eq |].
      intros j _ Hj%page_path_inj. lia.
    + cbn in Hk. rewrite <- Nat.add_succ_comm. by apply IH.
Qed.

(** X20.  What a successful run leaves in the workspace.  The input is
    still there with the content it had; every page of the document is
    there under [prepend_base_path("files", name)] of its returned name,
    holding the PNG form of that very page (no page was overwritten by a
    later one, none overwrote the input); and every other path of the
    workspace is as before. *)
Theorem main_store (w w' : world) (r : gmap str (list str)) :
  Tool.main parse_pdf get_pixmap frombytes save_png w = (Ok r, w') →
  ∃ name base_name data doc,
    environ w !! lit "PDF_FILE" = Some name
    ∧ base_name_of name = Ok base_name
    ∧ ws_files w !! workspace_path name = Some data
    ∧ parse_pdf data = Some doc
    ∧ ws_files w' !! workspace_path name = Some data
    ∧ (∀ i pg, doc !! i = Some pg →
         ws_files w' !! workspace_path (page_file_name base_name i)
         = Some (save_png (Tool.render get_pixmap frombytes default_dpi pg)))
    ∧ (∀ p, (∀ i, (i < length doc)%nat →
                  p ≠ workspace_path (page_file_name base_name i)) →
            ws_files w' !! p = ws_files w !! p).
Proof.
  intros H. rewrite main_unfold in H.
  destruct (create_scratch_dir w) as [[scratch_dir|e] w1] eqn:Hc; [| done].
  apply create_scratch_dir_frame in Hc as (He1 & Hf1 & _ & _).
  destruct (environ w1 !! _) as [name|] eqn:Hn; [| done].
  destruct (base_name_of name) as [base_name|e] eqn:Hb; [| done].
  destruct (copy_pdf_from_gptscript_workspace _ _ _)
    as [[local|e] w2] eqn:Hcp; [| done].
  apply copy_pdf_ok in Hcp as (data & Hd & -> & Hl & _ & Hf2 & _ & _).
  destruct (Tool.convert_pdf_to_images _ _ _ _ _ _)
    as [[images|e] w3] eqn:Hcv; [| done].
  apply convert_pdf_to_images_inv in Hcv as (-> & data' & doc & Hl' & Hp & ->).
  pose proof (save_loop_outcome save_png base_name
                (Tool.render get_pixmap frombytes default_dpi <$> doc)
                0 [] w2) as Ho.
  destruct (Tool.save_loop _ _ _ _ _ _) as [[generated|e] w4] eqn:Hs; [| done].
  destruct Ho as (_ & _ & Hf4). simplify_eq.
  rewrite He1 in Hn. rewrite Hf1 in Hd.
  assert (ws_files w' = store_after
            (page_writes save_png base_name 0
               (Tool.render get_pixmap frombytes default_dpi <$> doc))
            (ws_files w)) as Hw by congruence.
  exists name, base_name, data, doc.
  split; [done |]. split; [done |]. split; [done |]. split; [done |].
  rewrite Hw. split; [| split].
  - rewrite store_after_pages_other; [done |].
    intros j _ Hj. symmetry in Hj. by apply page_path_not_input in Hj.
  - intros i pg Hi.
    apply (store_after_pages_at base_name _ 0 i).
    by rewrite list_lookup_fmap, Hi.
  - intros p Hp'. apply store_after_pages_other.
    intros j Hj. apply Hp'. by rewrite length_fmap in Hj.
Qed.

End Store.

Lemma main_store_witness :
  let w := Sample.nested in
  let r := {[ lit "images" := [lit "foo/report_page_0.png"] ]} in
  let w' := (Sample.main w).2 in
  Sample.main w = (Ok r, w')
  ∧ ∃ name base_name data doc,
      environ w !! lit "PDF_FILE" = Some name
      ∧ base_name_of name = Ok base_name
      ∧ ws_files w !! workspace_path name = Some data
      ∧ Sample.parse_pdf data = Some doc
      ∧ ws_files w' !! workspace_path name = Some data
      ∧ (∀ i pg, doc !! i = Some pg →
           ws_files w' !! workspace_path (page_file_name base_name i)
           = Some (Sample.save_png
                     (Tool.render Sample.get_pixmap Sample.frombytes
                        default_dpi pg)))
      ∧ (∀ p, (∀ i, (i < length doc)%nat →
                    p ≠ workspace_path (page_file_name base_name i)) →
              ws_files w' !! p = ws_files w !! p).
Proof.
  intros w r w'.
  assert (Sample.main w = (Ok r, w')) as H by (vm_compute; reflexivity).
  split; [exact H |].
  exact (main_store Sample.parse_pdf Sample.get_pixmap Sample.frombytes
           Sample.save_png w w' r H).
Defined.

(** ** What a run writes on the local disk *)

Section Local.

Context {page image : Type}.
Variable parse_pdf : bytes → option (list page).
Variable get_pixmap : page → Matrix → Pixmap.
Variable frombytes : str → N * N → bytes → image.
Variable save_png : image → bytes.

(** The saving loop works in memory: it leaves the local files alone,
    however it ends. *)
Lemma save_loop_local (base_name : str) (images : list image) (i : nat)
    (acc : list str) (w : world) :
  fs_files (Tool.save_loop save_png base_name i images acc w).2 = fs_files w.
Proof.
  revert i acc w. induction images as [|img images IH]; intros i acc w.
  - done.
  - cbn [Tool.save_loop]. autounfold with run.
    rewrite save_step. unfold write_file_in_workspace.
    destruct (ws_fails w (length (ws_calls w))); [done |].
    by rewrite IH.
Qed.

(** The rasteriser changes nothing, however it ends. *)
Lemma convert_pdf_to_images_world (pdf_path : str) (dpi : Z) (w : world) :
  (Tool.convert_pdf_to_images parse_pdf get_pixmap frombytes pdf_path dpi w).2
  = w.
Proof.
  destruct (Tool.convert_pdf_to_images _ _ _ _ _ _) as [[images|e] w'] eqn:H.
  - by apply convert_pdf_to_images_inv in H as [-> _].
  - by apply convert_pdf_to_images_raise in H as [-> _].
Qed.

(** X21.  However a run ends, it has written at most one local file: the
    copy of the input.  Either the local files are as before, or both
    variables are set, the workspace holds the input, and the one file
    written is the scratch directory joined with the last component of
    the input name (a plain name, so the file sits directly in the
    scratch directory), holding the content of the input. *)
Theorem main_local_footprint (w w' : world)
    (res : result (gmap str (list str))) :
  Tool.main parse_pdf get_pixmap frombytes save_png w = (res, w') →
  fs_files w' = fs_files w
  ∨ ∃ dir name data,
      environ w !! lit "GPTSCRIPT_WORKSPACE_DIR" = Some dir
      ∧ environ w !! lit "PDF_FILE" = Some name
      ∧ ws_files w !! workspace_path name = Some data
      ∧ plain_segment (PosixPath.basename name)
      ∧ fs_files w'
        = <[PosixPath.join (PosixPath.join dir (lit "scratch"))
                           (PosixPath.basename name) := data]> (fs_files w).
Proof.
  intros H. rewrite main_unfold in H.
  destruct (create_scratch_dir w) as [[d|e] w1] eqn:Hc.
  2:{ apply create_scratch_dir_raise in Hc as (-> & _). simplify_eq. by left. }
  pose proof (create_scratch_dir_frame _ _ _ Hc) as (He1 & Hw1 & _ & _).
  apply create_scratch_dir_ok in Hc as (dir & Hdir & -> & _ & Hf1 & _).
  destruct (environ w1 !! _) as [name|] eqn:Hn; [| simplify_eq; by left].
  destruct (base_name_of name) as [base_name|e] eqn:Hb;
    [| simplify_eq; by left].
  destruct (copy_pdf_from_gptscript_workspace _ _ _)
    as [[local|e] w2] eqn:Hcp.
  2:{ apply copy_pdf_raise_cases in Hcp as (-> & _). simplify_eq. by left. }
  apply copy_pdf_staged in Hcp as (data & Hd & Hplain & -> & _ & Hf2).
  right. exists dir, name, data.
  rewrite He1 in Hn. rewrite Hw1 in Hd. rewrite Hf1 in Hf2.
  do 4 (split; [done |]). rewrite <- Hf2.
  pose proof (convert_pdf_to_images_world
                (PosixPath.join (PosixPath.join dir (lit "scratch"))
                   (PosixPath.basename name)) default_dpi w2) as Hcv.
  destruct (Tool.convert_pdf_to_images _ _ _ _ _ _) as [[images|e] w3];
    cbn in Hcv; subst w3; [| by simplify_eq].
  pose proof (save_loop_local base_name images 0 [] w2) as Hs.
  destruct (Tool.save_loop _ _ _ _ _ _) as [[generated|e] w4];
    cbn in Hs; by simplify_eq.
Qed.

End Local.

Lemma main_local_footprint_witness :
  let w := Faults.flaky in
  let w' := (Sample.main w).2 in
  Sample.main w = (Raise WorkspaceError, w')
  ∧ (fs_files w' = fs_files w
     ∨ ∃ dir name data,
         environ w !! lit "GPTSCRIPT_WORKSPACE_DIR" = Some dir
         ∧ environ w !! lit "PDF_FILE" = Some name
         ∧ ws_files w !! workspace_path name = Some data
         ∧ plain_segment (PosixPath.basename name)
         ∧ fs_files w'
           = <[PosixPath.join (PosixPath.join dir (lit "scratch"))
                              (PosixPath.basename name) := data]> (fs_files w)).
Proof.
  intros w w'.
  assert (Sample.main w = (Raise WorkspaceError, w')) as H
    by (vm_compute; reflexivity).
  split; [exact H |].
  exact (main_local_footprint Sample.parse_pdf Sample.get_pixmap
           Sample.frombytes Sample.save_png w w' _ H).
Defined.
